(** * Serial setpoint framing of the bottomside Arduino sketches

    A shallow embedding of the two sketches of the repository,
    [Arduino/Arduino.ino] and the servo variant (called [part_000] below),
    and the properties of their byte accumulator, integer decoder and frame
    dispatcher.

    Conventions of the embedding.
    - [int] is a 32-bit two's-complement integer, as the specification of
      the protocol assumes; values are kept in [Z] and every [int]
      operation that can leave the range is wrapped explicitly
      ([wrap_int]).  Signed overflow and shifts of negative values are
      given their two's-complement result.
    - [unsigned char] holds 0..255.  Whether plain [char] is signed is up
      to the compiler (signed for avr-gcc and x86, unsigned on ARM), so the
      model of [Arduino.ino] takes it as a parameter [plain_char_signed].
    - The globals of a sketch, the bytes waiting at the serial port and the
      log of calls made to [Serial] and to the servos form one record that
      is threaded through a state-and-fault monad.
    - An array access outside the declared array is undefined behaviour in
      C++: it is the fault [OutOfBounds].  Subscripting a variable
      declared [int] is not C++ at all: it is the fault
      [IllFormedSubscript].  A compiler rejects the servo variant at these
      places, so that sketch has no run of its own; the fault keeps the
      statement where it stands, and of the servo variant the properties
      state the arithmetic of its decoder, which is well formed, and what
      can never come out of it (a stored setpoint, a printed frame, a servo
      command).
    - [delay] and the baud rate are not modelled: there is no time.
    - A run of the framing starts right after [setup], with the globals as
      initialised and an empty log; [setup] of [Arduino.ino] is modelled
      apart. *)

From Stdlib Require Import ZArith List Lia Bool String Ascii.
From stdpp Require Import base list strings pretty.

Local Open Scope Z_scope.

(** ** C integers and characters *)

Definition INT_BITS : Z := 32.

(** Reduction of a mathematical integer to the [int] holding it. *)
Definition wrap_int (z : Z) : Z :=
  (z + 2 ^ (INT_BITS - 1)) mod 2 ^ INT_BITS - 2 ^ (INT_BITS - 1).

(** [a + b] and [a << n] on [int]. *)
Definition int_add (a b : Z) : Z := wrap_int (a + b).
Definition int_shl (a n : Z) : Z := wrap_int (Z.shiftl a n).

(** Conversion of an [int] to [unsigned char], to [signed char], and to
    plain [char]. *)
Definition to_unsigned_char (c : Z) : Z := c mod 256.
Definition to_signed_char (c : Z) : Z := (c + 128) mod 256 - 128.
Definition to_plain_char (plain_char_signed : bool) (c : Z) : Z :=
  if plain_char_signed then to_signed_char c else to_unsigned_char c.

(** What [Serial.read()] can return when a byte is available. *)
Definition is_byte (b : Z) : Prop := 0 <= b < 256.

(** ** Calls observed at the boundary *)

Inductive event : Type :=
| Serial_print_int (v : Z)                 (* Serial.print(int) *)
| Serial_print_str (s : string)            (* Serial.print(const char* ) *)
| Serial_println_str (s : string)          (* Serial.println(const char* ) *)
| Servo_writeMicroseconds (i us : Z).      (* servo[i].writeMicroseconds(us) *)

(** The line end that [println] appends: carriage return, line feed. *)
Definition line_end : string :=
  String (ascii_of_nat 13) (String (ascii_of_nat 10) EmptyString).

(** The characters an event puts on the serial line: [print] of an [int]
    writes it in base 10, with a leading minus sign when negative. *)
Definition serial_text (e : event) : string :=
  match e with
  | Serial_print_int v => pretty v
  | Serial_print_str s => s
  | Serial_println_str s => s +:+ line_end
  | Servo_writeMicroseconds _ _ => EmptyString
  end.

Fixpoint serial_output (log : list event) : string :=
  match log with
  | [] => EmptyString
  | e :: log' => serial_text e +:+ serial_output log'
  end.

(** The calls made to the servos, as (channel, value) pairs. *)
Fixpoint servo_calls (log : list event) : list (Z * Z) :=
  match log with
  | [] => []
  | Servo_writeMicroseconds i us :: log' => (i, us) :: servo_calls log'
  | _ :: log' => servo_calls log'
  end.

(** ** The monad of a sketch: state, with faults *)

Inductive fault : Type :=
| OutOfBounds            (* access outside a declared array *)
| IllFormedSubscript.    (* subscript applied to an int *)

(** A computation ends normally with a value and a state, or stops at a
    fault in the state reached so far. *)
Inductive result (S A : Type) : Type :=
| Done (a : A) (s : S)
| Fault (f : fault) (s : S).
Arguments Done {S A} a s.
Arguments Fault {S A} f s.

Definition M (S A : Type) : Type := S -> result S A.

Definition ret {S A} (a : A) : M S A := fun s => Done a s.

Definition bind {S A B} (m : M S A) (k : A -> M S B) : M S B :=
  fun s => match m s with
           | Done a s' => k a s'
           | Fault f s' => Fault f s'
           end.

Definition gets {S A} (f : S -> A) : M S A := fun s => Done (f s) s.
Definition modify {S} (f : S -> S) : M S unit := fun s => Done tt (f s).
Definition raise {S A} (f : fault) : M S A := fun s => Fault f s.

Declare Scope sketch_scope.
Delimit Scope sketch_scope with sketch.
Notation "x <- m ;; k" := (bind m (fun x => k))
  (at level 100, m at next level, k at level 200, right associativity)
  : sketch_scope.
Notation "m ;; k" := (bind m (fun _ => k))
  (at level 100, k at level 200, right associativity) : sketch_scope.
Local Open Scope sketch_scope.

(** [if (c) { body }] *)
Definition when {S} (c : bool) (body : M S unit) : M S unit :=
  if c then body else ret tt.

(** [for (int i = lo; i < hi; ++i) body(i)].  The fuel is one more than the
    number of iterations, so the loop is always left through its test. *)
Fixpoint for_upto {S} (fuel : nat) (i hi : Z) (body : Z -> M S unit) : M S unit :=
  match fuel with
  | O => ret tt
  | Datatypes.S fuel' =>
      if i <? hi then body i ;; for_upto fuel' (i + 1) hi body else ret tt
  end.

Definition for_range {S} (lo hi : Z) (body : Z -> M S unit) : M S unit :=
  for_upto (Datatypes.S (Z.to_nat (hi - lo))) lo hi body.

(** ** Arrays of a declared size *)

Definition in_bounds (i : Z) (a : list Z) : bool :=
  (0 <=? i) && (i <? Z.of_nat (length a)).

(** [a[i]] as an rvalue and [a[i] = v], for a global array read by [get]
    and written by [set]. *)
Definition array_load {S} (get : S -> list Z) (i : Z) : M S Z :=
  fun s => if in_bounds i (get s)
           then Done (get s !!! Z.to_nat i) s
           else Fault OutOfBounds s.

Definition array_store {S} (get : S -> list Z) (set : list Z -> S -> S)
    (i v : Z) : M S unit :=
  fun s => if in_bounds i (get s)
           then Done tt (set (<[Z.to_nat i := v]> (get s)) s)
           else Fault OutOfBounds s.

(** [x[i]] and [x[i] = v] where [x] is declared [int]: the expression is
    ill-formed, it names no object and has no value. *)
Definition int_subscript_load {S} (x i : Z) : M S Z :=
  raise IllFormedSubscript.
Definition int_subscript_store {S} (x i v : Z) : M S unit :=
  raise IllFormedSubscript.

(** [delay(ms)]: time is not modelled. *)
Definition delay {S} (ms : Z) : M S unit := ret tt.

(** ** [Arduino/Arduino.ino] *)

Module ArduinoIno.

Definition VALUE_LENGTH : Z := 6.

(** The globals of the sketch, the serial port and the log of calls. *)
Record sketch : Type := Sketch {
  buffer : list Z;          (* char buffer[64] *)
  read_bytes : Z;           (* int read_bytes = 0 *)
  values : list Z;          (* int values[VALUE_LENGTH] *)
  read_values : Z;          (* int read_values = 0 *)
  serial_rx : list Z;       (* bytes received, not yet read *)
  log : list event          (* calls made so far, oldest first *)
}.

Definition set_buffer (x : list Z) (s : sketch) : sketch :=
  Sketch x (read_bytes s) (values s) (read_values s) (serial_rx s) (log s).
Definition set_read_bytes (x : Z) (s : sketch) : sketch :=
  Sketch (buffer s) x (values s) (read_values s) (serial_rx s) (log s).
Definition set_values (x : list Z) (s : sketch) : sketch :=
  Sketch (buffer s) (read_bytes s) x (read_values s) (serial_rx s) (log s).
Definition set_read_values (x : Z) (s : sketch) : sketch :=
  Sketch (buffer s) (read_bytes s) (values s) x (serial_rx s) (log s).
Definition set_serial_rx (x : list Z) (s : sketch) : sketch :=
  Sketch (buffer s) (read_bytes s) (values s) (read_values s) x (log s).
Definition set_log (x : list event) (s : sketch) : sketch :=
  Sketch (buffer s) (read_bytes s) (values s) (read_values s) (serial_rx s) x.

(** The state at power-on (globals are zero-initialised) with the bytes
    [rx] waiting at the port and nothing logged. *)
Definition start (rx : list Z) : sketch :=
  Sketch (replicate 64 0) 0 (replicate (Z.to_nat VALUE_LENGTH) 0) 0 rx [].

(** The serial port. *)
Definition Serial_available : M sketch Z :=
  gets (fun s => Z.of_nat (length (serial_rx s))).

Definition Serial_read : M sketch Z :=
  fun s => match serial_rx s with
           | [] => Done (-1) s
           | c :: rx => Done c (set_serial_rx rx s)
           end.

Definition emit (e : event) : M sketch unit :=
  modify (fun s => set_log (log s ++ [e]) s).

(** The loop of [parse_int] over its locals [i], [ans] and [offset]. *)
Fixpoint parse_int_for (fuel : nat) (buf : list Z) (i ans offset : Z) : Z :=
  match fuel with
  | O => ans
  | S fuel' =>
      if i <? 4 then
        let c := int_shl (buf !!! Z.to_nat i) offset in
        parse_int_for fuel' buf (i + 1) (int_add ans c) (offset + 8)
      else ans
  end.

(** The value of [ans] when [parse_int] reaches its last statement.  The
    reads [buffer[0]] .. [buffer[3]] are inside the declared array. *)
Definition parse_int_ans (buf : list Z) : Z :=
  parse_int_for 4 buf 1 (buf !!! 0%nat) 8.

Definition parse_int : M sketch unit :=
  buf <- gets buffer ;;
  let ans := parse_int_ans buf in
  (* values[read_values++] = ans; *)
  i <- gets read_values ;;
  modify (set_read_values (int_add i 1)) ;;
  array_store values set_values i ans.

Definition print_values : M sketch unit :=
  for_range 0 VALUE_LENGTH (fun i =>
    v <- array_load values i ;;
    emit (Serial_print_int v) ;;            (* Serial.print(values[i]); *)
    emit (Serial_print_str ";")) ;;         (* Serial.print(";"); *)
  emit (Serial_println_str "") ;;           (* Serial.println, empty string *)
  modify (set_read_values 0).               (* read_values = 0; *)

Section PlainChar.

Variable plain_char_signed : bool.

Definition handleSerial : M sketch unit :=
  (* int c = Serial.read(); *)
  c <- Serial_read ;;
  (* buffer[read_bytes++] = c; *)
  i <- gets read_bytes ;;
  modify (set_read_bytes (int_add i 1)) ;;
  array_store buffer set_buffer i (to_plain_char plain_char_signed c) ;;
  (* if (read_bytes >= 4) { parse_int(); read_bytes = 0; } *)
  rb <- gets read_bytes ;;
  when (rb >=? 4) (parse_int ;; modify (set_read_bytes 0)) ;;
  (* if (read_values >= VALUE_LENGTH) { print_values(); read_values = 0; } *)
  rv <- gets read_values ;;
  when (rv >=? VALUE_LENGTH) (print_values ;; modify (set_read_values 0)).

(** [while (Serial.available()) handleSerial();] *)
Fixpoint while_available (fuel : nat) : M sketch unit :=
  match fuel with
  | O => ret tt
  | S fuel' =>
      n <- Serial_available ;;
      if negb (n =? 0) then handleSerial ;; while_available fuel' else ret tt
  end.

(** One pass of [loop].  Each turn of the [while] takes one byte from the
    port, so one more turn than there are bytes waiting is enough for the
    loop to be left through its test. *)
Definition loop : M sketch unit :=
  fun s => (while_available (S (length (serial_rx s))) ;; delay 20) s.

(** The decoder seen from the wire: the four bytes of a group are stored
    by [handleSerial] at [buffer[0]] .. [buffer[3]], then [parse_int]
    computes [ans] from them. *)
Definition decode (b0 b1 b2 b3 : Z) : Z :=
  parse_int_ans (to_plain_char plain_char_signed <$> [b0; b1; b2; b3]).

End PlainChar.

End ArduinoIno.

(** ** The servo variant, [part_000] *)

Module Part000.

Definition DATA_RECV_LENGTH : Z := 6.
Definition MOTOR_COUNT : Z := 6.

Record sketch : Type := Sketch {
  buffer : list Z;              (* unsigned char buffer[64] *)
  bytes_consumed : Z;           (* int bytes_consumed = 0 *)
  data_recv : list Z;           (* int data_recv[DATA_RECV_LENGTH] *)
  data_recv_consumed : Z;       (* int data_recv_consumed = 0 *)
  serial_rx : list Z;
  log : list event
}.

Definition set_buffer (x : list Z) (s : sketch) : sketch :=
  Sketch x (bytes_consumed s) (data_recv s) (data_recv_consumed s)
    (serial_rx s) (log s).
Definition set_bytes_consumed (x : Z) (s : sketch) : sketch :=
  Sketch (buffer s) x (data_recv s) (data_recv_consumed s)
    (serial_rx s) (log s).
Definition set_data_recv_consumed (x : Z) (s : sketch) : sketch :=
  Sketch (buffer s) (bytes_consumed s) (data_recv s) x (serial_rx s) (log s).
Definition set_serial_rx (x : list Z) (s : sketch) : sketch :=
  Sketch (buffer s) (bytes_consumed s) (data_recv s) (data_recv_consumed s)
    x (log s).
Definition set_log (x : list event) (s : sketch) : sketch :=
  Sketch (buffer s) (bytes_consumed s) (data_recv s) (data_recv_consumed s)
    (serial_rx s) x.

Definition start (rx : list Z) : sketch :=
  Sketch (replicate 64 0) 0 (replicate (Z.to_nat DATA_RECV_LENGTH) 0) 0 rx [].

Definition Serial_available : M sketch Z :=
  gets (fun s => Z.of_nat (length (serial_rx s))).

Definition Serial_read : M sketch Z :=
  fun s => match serial_rx s with
           | [] => Done (-1) s
           | c :: rx => Done c (set_serial_rx rx s)
           end.

Definition emit (e : event) : M sketch unit :=
  modify (fun s => set_log (log s ++ [e]) s).

(** The loop of [parse_int]: here the byte is first copied to the [int]
    local [c], then shifted. *)
Fixpoint parse_int_for (fuel : nat) (buf : list Z) (i ans offset : Z) : Z :=
  match fuel with
  | O => ans
  | S fuel' =>
      if i <? 4 then
        let c := buf !!! Z.to_nat i in
        parse_int_for fuel' buf (i + 1) (int_add ans (int_shl c offset))
          (offset + 8)
      else ans
  end.

Definition parse_int_ans (buf : list Z) : Z :=
  parse_int_for 4 buf 1 (buf !!! 0%nat) 8.

(** The last statement of [parse_int] is
    [data_recv_consumed[data_recv_consumed++] = ans;]: the subscript is
    applied to the counter, not to the array [data_recv].  The statement
    being ill-formed, no part of it takes effect, the increment included. *)
Definition parse_int : M sketch unit :=
  buf <- gets buffer ;;
  let ans := parse_int_ans buf in
  x <- gets data_recv_consumed ;;
  int_subscript_store x x ans.

(** [servo[i].writeMicroseconds(data_recv_consumed[i])] *)
Definition set_motors : M sketch unit :=
  for_range 0 MOTOR_COUNT (fun i =>
    x <- gets data_recv_consumed ;;
    v <- int_subscript_load x i ;;
    emit (Servo_writeMicroseconds i v)).

(** [Serial.print(data_recv_consumed[i])] *)
Definition print_data_recv : M sketch unit :=
  for_range 0 DATA_RECV_LENGTH (fun i =>
    x <- gets data_recv_consumed ;;
    v <- int_subscript_load x i ;;
    emit (Serial_print_int v) ;;
    emit (Serial_print_str ";")) ;;
  emit (Serial_println_str "").

Definition handleSerial : M sketch unit :=
  (* int c = Serial.read(); *)
  c <- Serial_read ;;
  (* buffer[bytes_consumed++] = c; *)
  i <- gets bytes_consumed ;;
  modify (set_bytes_consumed (int_add i 1)) ;;
  array_store buffer set_buffer i (to_unsigned_char c) ;;
  (* if (bytes_consumed >= 4) { parse_int(); bytes_consumed = 0; } *)
  bc <- gets bytes_consumed ;;
  when (bc >=? 4) (parse_int ;; modify (set_bytes_consumed 0)) ;;
  (* if (data_recv_consumed >= DATA_RECV_LENGTH) {
       print_data_recv(); set_motors(); data_recv_consumed = 0; } *)
  dc <- gets data_recv_consumed ;;
  when (dc >=? DATA_RECV_LENGTH)
    (print_data_recv ;; set_motors ;; modify (set_data_recv_consumed 0)).

Fixpoint while_available (fuel : nat) : M sketch unit :=
  match fuel with
  | O => ret tt
  | S fuel' =>
      n <- Serial_available ;;
      if negb (n =? 0) then handleSerial ;; while_available fuel' else ret tt
  end.

Definition loop : M sketch unit :=
  fun s => (while_available (S (length (serial_rx s))) ;; delay 20) s.

Definition decode (b0 b1 b2 b3 : Z) : Z :=
  parse_int_ans (to_unsigned_char <$> [b0; b1; b2; b3]).

End Part000.

(** ** [setup] of [Arduino.ino] *)

(** The calls [setup] makes to configure the board.  They are kept apart
    from the log of a running sketch. *)
Inductive setup_call : Type :=
| Serial_begin (baud : Z)             (* Serial.begin(baud) *)
| Serial_setTimeout (ms : Z).         (* Serial.setTimeout(ms) *)

(** A sketch together with the configuration calls made so far. *)
Record board (S : Type) : Type := Board {
  setup_calls : list setup_call;
  sketch_of : S
}.
Arguments Board {S} _ _.
Arguments setup_calls {S} _.
Arguments sketch_of {S} _.

Definition configure {S} (c : setup_call) : M (board S) unit :=
  modify (fun b => Board (setup_calls b ++ [c]) (sketch_of b)).

(** A computation of the sketch, run on the board. *)
Definition on_sketch {S A} (m : M S A) : M (board S) A :=
  fun b => match m (sketch_of b) with
           | Done a s => Done a (Board (setup_calls b) s)
           | Fault f s => Fault f (Board (setup_calls b) s)
           end.

Module ArduinoInoSetup.

Definition setup : M (board ArduinoIno.sketch) unit :=
  configure (Serial_begin 115200) ;;           (* Serial.begin(115200); *)
  configure (Serial_setTimeout 20) ;;          (* Serial.setTimeout(20); *)
  on_sketch (ArduinoIno.emit (Serial_println_str "Begin.")).

(** What the Arduino core runs: [setup] once, then [loop]. *)
Definition main (plain_char_signed : bool)
  : M (board ArduinoIno.sketch) unit :=
  setup ;; on_sketch (ArduinoIno.loop plain_char_signed).

End ArduinoInoSetup.

(** * Notions the properties are stated with *)

(** ** The setpoint the protocol specifies *)

(** The little-endian composition of four bytes, and its reading as a
    signed 32-bit two's-complement value: bit 31 carries the sign. *)
Definition little_endian_32 (b0 b1 b2 b3 : Z) : Z :=
  b0 + Z.shiftl b1 8 + Z.shiftl b2 16 + Z.shiftl b3 24.

Definition signed32 (u : Z) : Z :=
  if Z.testbit u 31 then u - 2 ^ 32 else u.

(** ** Frames in the log *)

(** The calls that report one frame: each value, a semicolon after each,
    then the end of the line. *)
Definition frame_log (vals : list Z) : list event :=
  concat ((fun v => [Serial_print_int v; Serial_print_str ";"]) <$> vals)
  ++ [Serial_println_str ""].

(** The text of one frame as the specification words it: each value in
    decimal with a semicolon after it, and the end of the line after the
    last one. *)
Fixpoint frame_text (vals : list Z) : string :=
  match vals with
  | [] => line_end
  | v :: vals' => pretty v +:+ (";" +:+ frame_text vals')
  end.

(** The number of lines ended in a log: one per frame reported. *)
Fixpoint frames_logged (lg : list event) : Z :=
  match lg with
  | [] => 0
  | Serial_println_str _ :: lg' => 1 + frames_logged lg'
  | _ :: lg' => frames_logged lg'
  end.

(** ** States along a run *)

(** The arrays have their declared sizes and both cursors are where the
    sketch leaves them between two calls of [handleSerial]. *)
Definition between_calls (s : ArduinoIno.sketch) : Prop :=
  length (ArduinoIno.buffer s) = 64%nat
  /\ length (ArduinoIno.values s) = 6%nat
  /\ 0 <= ArduinoIno.read_bytes s < 4
  /\ 0 <= ArduinoIno.read_values s < ArduinoIno.VALUE_LENGTH.

(** The number of bytes of the current frame already consumed. *)
Definition position (s : ArduinoIno.sketch) : Z :=
  4 * ArduinoIno.read_values s + ArduinoIno.read_bytes s.

(** The state in which a run ended, normally or at a fault. *)
Definition servo_final (r : result Part000.sketch unit) : Part000.sketch :=
  match r with
  | Done _ s => s
  | Fault _ s => s
  end.

(** ** The setpoints carried by the bytes of a frame *)

(** The integers of the first [n] groups of four bytes of [bs]. *)
Fixpoint decode_groups (plain_char_signed : bool) (n : nat) (bs : list Z)
  : list Z :=
  match n, bs with
  | S n', b0 :: b1 :: b2 :: b3 :: rest =>
      ArduinoIno.decode plain_char_signed b0 b1 b2 b3
      :: decode_groups plain_char_signed n' rest
  | _, _ => []
  end.

(** The six setpoints carried by the 24 bytes of a frame. *)
Definition decode_frame (plain_char_signed : bool) (bs : list Z) : list Z :=
  decode_groups plain_char_signed 6 bs.

(** ** The sender's side of the wire *)

(** The values an [int] holds. *)
Definition is_int (v : Z) : Prop := - 2 ^ 31 <= v < 2 ^ 31.

(** Byte [k] of the two's-complement form of [v], and the four bytes of a
    setpoint in the order the sketches expect them, lowest first. *)
Definition le_byte (k v : Z) : Z := Z.land (Z.shiftr v (8 * k)) 255.

Definition le_bytes (v : Z) : list Z :=
  [le_byte 0 v; le_byte 1 v; le_byte 2 v; le_byte 3 v].

(** The bytes of a frame of setpoints. *)
Definition encode_frame (vs : list Z) : list Z := concat (le_bytes <$> vs).

(** ** Input as it arrives *)

(** More bytes reach the port, behind those already waiting. *)
Definition receive (bs : list Z) (s : ArduinoIno.sketch) : ArduinoIno.sketch :=
  ArduinoIno.set_serial_rx (ArduinoIno.serial_rx s ++ bs) s.

(** The successive groups of 24 bytes of a stream; what is left at the end,
    fewer than 24 bytes, belongs to no frame yet. *)
Fixpoint complete_frames_upto (n : nat) (bs : list Z) : list (list Z) :=
  match n with
  | O => []
  | S n' =>
      if (24 <=? length bs)%nat
      then take 24 bs :: complete_frames_upto n' (drop 24 bs)
      else []
  end.

Definition complete_frames (bs : list Z) : list (list Z) :=
  complete_frames_upto (length bs) bs.

(** One frame line per complete frame, in order. *)
Definition stream_log (plain_char_signed : bool) (bs : list Z) : list event :=
  concat ((fun f => frame_log (decode_frame plain_char_signed f))
            <$> complete_frames bs).

(** The text of those lines on the serial line. *)
Definition stream_text (plain_char_signed : bool) (bs : list Z) : string :=
  foldr (fun f acc => frame_text (decode_frame plain_char_signed f) +:+ acc)
    EmptyString (complete_frames bs).

(** The core calls [loop] again and again; before each pass a batch of
    bytes, possibly empty, has reached the port. *)
Fixpoint passes (plain_char_signed : bool) (batches : list (list Z))
  : M ArduinoIno.sketch unit :=
  match batches with
  | [] => ret tt
  | b :: batches' =>
      modify (receive b) ;;
      ArduinoIno.loop plain_char_signed ;;
      passes plain_char_signed batches'
  end.

(** ** Proof steps shared by the lemmas on [Arduino.ino] *)

Ltac ino_simpl :=
  unfold ArduinoIno.set_serial_rx, ArduinoIno.set_read_bytes,
    ArduinoIno.set_buffer, ArduinoIno.set_values,
    ArduinoIno.set_read_values, ArduinoIno.set_log;
  cbn [ArduinoIno.serial_rx ArduinoIno.read_bytes ArduinoIno.buffer
       ArduinoIno.values ArduinoIno.read_values ArduinoIno.log].

Ltac ino_unfold :=
  unfold ArduinoIno.handleSerial, ArduinoIno.parse_int, bind, gets, modify,
    ArduinoIno.emit, ArduinoIno.Serial_read, ArduinoIno.Serial_available,
    array_store, array_load, when, ret.

Ltac int_small := change (2 ^ 31) with 2147483648; lia.

(** One more group of four bytes, through the lemma [step] on a group. *)
Ltac next_group step :=
  match goal with
  | Hb : length ?buf = 64%nat
    |- context [ArduinoIno.while_available _ _
                  (ArduinoIno.Sketch ?buf _ _ _ _ _)] =>
      let b := fresh "b" in
      let Hb' := fresh "Hb" in
      edestruct step as (b & Hb' & ->);
      [exact Hb | reflexivity | lia |]; clear Hb
  end.

(** * Properties *)

(** ** Arithmetic of [int] and of characters *)

Lemma wrap_int_id (z : Z) : - 2 ^ 31 <= z < 2 ^ 31 -> wrap_int z = z.
Proof.
  intros Hz. unfold wrap_int, INT_BITS.
  change (2 ^ (32 - 1)) with 2147483648. change (2 ^ 32) with 4294967296.
  change (2 ^ 31) with 2147483648 in Hz.
  rewrite Z.mod_small; lia.
Qed.

Lemma wrap_int_high (z : Z) :
  2 ^ 31 <= z < 2 ^ 32 -> wrap_int z = z - 2 ^ 32.
Proof.
  intros Hz. unfold wrap_int, INT_BITS.
  change (2 ^ (32 - 1)) with 2147483648. change (2 ^ 32) with 4294967296 in *.
  change (2 ^ 31) with 2147483648 in Hz.
  replace (z + 2147483648) with ((z - 2147483648) + 1 * 4294967296) by lia.
  rewrite Z.mod_add by lia. rewrite Z.mod_small; lia.
Qed.

Lemma int_add_small (a b : Z) :
  - 2 ^ 31 <= a + b < 2 ^ 31 -> int_add a b = a + b.
Proof. apply wrap_int_id. Qed.

Lemma signed32_low (u : Z) : 0 <= u < 2 ^ 31 -> signed32 u = u.
Proof.
  intros Hu. unfold signed32.
  rewrite (Z.bits_above_log2 u 31); [reflexivity | lia |].
  destruct (Z.eq_dec u 0) as [-> | Hne]; [reflexivity |].
  apply Z.log2_lt_pow2; lia.
Qed.

Lemma signed32_high (u : Z) :
  2 ^ 31 <= u < 2 ^ 32 -> signed32 u = u - 2 ^ 32.
Proof.
  intros Hu. unfold signed32.
  assert (Hbit : Z.testbit u 31 = true).
  { apply Z.testbit_true; [lia |].
    change (2 ^ 31) with 2147483648 in *. change (2 ^ 32) with 4294967296 in *.
    assert (u / 2147483648 = 1) as ->; [| reflexivity].
    symmetry. apply (Z.div_unique u 2147483648 1 (u - 2147483648)); lia. }
  rewrite Hbit. reflexivity.
Qed.

Lemma to_unsigned_char_byte (b : Z) : is_byte b -> to_unsigned_char b = b.
Proof. unfold is_byte, to_unsigned_char. intros Hb. apply Z.mod_small. lia. Qed.

Lemma to_signed_char_low (b : Z) : 0 <= b < 128 -> to_signed_char b = b.
Proof.
  intros Hb. unfold to_signed_char. rewrite Z.mod_small; lia.
Qed.

Lemma to_signed_char_high (b : Z) :
  128 <= b < 256 -> to_signed_char b = b - 256.
Proof.
  intros Hb. unfold to_signed_char.
  replace (b + 128) with ((b - 128) + 1 * 256) by lia.
  rewrite Z.mod_add by lia. rewrite Z.mod_small; lia.
Qed.

(** ** The decoder *)

(** Both loops unroll to the same three additions. *)
Lemma ino_parse_int_ans_unroll (buf : list Z) :
  ArduinoIno.parse_int_ans buf =
  int_add (int_add (int_add (buf !!! 0%nat) (int_shl (buf !!! 1%nat) 8))
                   (int_shl (buf !!! 2%nat) 16))
          (int_shl (buf !!! 3%nat) 24).
Proof. reflexivity. Qed.

Lemma servo_parse_int_ans_unroll (buf : list Z) :
  Part000.parse_int_ans buf =
  int_add (int_add (int_add (buf !!! 0%nat) (int_shl (buf !!! 1%nat) 8))
                   (int_shl (buf !!! 2%nat) 16))
          (int_shl (buf !!! 3%nat) 24).
Proof. reflexivity. Qed.

Lemma parse_int_ans_same (buf : list Z) :
  ArduinoIno.parse_int_ans buf = Part000.parse_int_ans buf.
Proof.
  rewrite ino_parse_int_ans_unroll, servo_parse_int_ans_unroll. reflexivity.
Qed.

(** The three additions on unsigned bytes. *)
Lemma compose_unsigned (b0 b1 b2 b3 : Z) :
  is_byte b0 -> is_byte b1 -> is_byte b2 -> is_byte b3 ->
  int_add (int_add (int_add b0 (int_shl b1 8)) (int_shl b2 16)) (int_shl b3 24)
  = signed32 (little_endian_32 b0 b1 b2 b3).
Proof.
  unfold is_byte, little_endian_32, int_shl. intros H0 H1 H2 H3.
  rewrite !Z.shiftl_mul_pow2 by lia.
  change (2 ^ 8) with 256. change (2 ^ 16) with 65536.
  change (2 ^ 24) with 16777216.
  rewrite (wrap_int_id (b1 * 256)) by (change (2 ^ 31) with 2147483648; lia).
  rewrite (wrap_int_id (b2 * 65536)) by (change (2 ^ 31) with 2147483648; lia).
  rewrite (int_add_small b0) by (change (2 ^ 31) with 2147483648; lia).
  rewrite (int_add_small (b0 + _)) by (change (2 ^ 31) with 2147483648; lia).
  destruct (Z_lt_le_dec b3 128) as [Hlo | Hhi].
  - rewrite (wrap_int_id (b3 * 16777216))
      by (change (2 ^ 31) with 2147483648; lia).
    rewrite int_add_small by (change (2 ^ 31) with 2147483648; lia).
    rewrite signed32_low by (change (2 ^ 31) with 2147483648; lia).
    reflexivity.
  - rewrite (wrap_int_high (b3 * 16777216))
      by (change (2 ^ 31) with 2147483648; change (2 ^ 32) with 4294967296; lia).
    change (2 ^ 32) with 4294967296.
    rewrite int_add_small by (change (2 ^ 31) with 2147483648; lia).
    rewrite signed32_high
      by (change (2 ^ 31) with 2147483648; change (2 ^ 32) with 4294967296; lia).
    change (2 ^ 32) with 4294967296. lia.
Qed.

Lemma signed32_range (u : Z) :
  0 <= u < 2 ^ 32 -> - 2 ^ 31 <= signed32 u < 2 ^ 31.
Proof.
  intros Hu. destruct (Z_lt_le_dec u (2 ^ 31)) as [Hlo | Hhi].
  - rewrite signed32_low by lia. lia.
  - rewrite signed32_high by lia.
    change (2 ^ 31) with 2147483648 in *. change (2 ^ 32) with 4294967296 in *.
    lia.
Qed.

Lemma little_endian_32_range (b0 b1 b2 b3 : Z) :
  is_byte b0 -> is_byte b1 -> is_byte b2 -> is_byte b3 ->
  0 <= little_endian_32 b0 b1 b2 b3 < 2 ^ 32.
Proof.
  unfold is_byte, little_endian_32. intros H0 H1 H2 H3.
  rewrite !Z.shiftl_mul_pow2 by lia.
  change (2 ^ 8) with 256. change (2 ^ 16) with 65536.
  change (2 ^ 24) with 16777216. change (2 ^ 32) with 4294967296. lia.
Qed.

(** Where plain [char] is signed, [Arduino.ino] sign-extends a byte of 0x80
    or more when it reads it back from [buffer]. *)
Lemma ino_decode_signed (b0 b1 b2 b3 : Z) :
  ArduinoIno.decode true b0 b1 b2 b3 =
  int_add (int_add (int_add (to_signed_char b0)
                            (int_shl (to_signed_char b1) 8))
                   (int_shl (to_signed_char b2) 16))
          (int_shl (to_signed_char b3) 24).
Proof. reflexivity. Qed.

(** C7.  The two decoders are not the same function where plain [char] is
    signed: the setpoint 1500, sent as the bytes DC 05 00 00, is decoded as
    1500 by the servo variant and as 1244 by [Arduino.ino]; the byte 0x80
    alone gives 128 and -128. *)
Theorem decoders_differ_on_high_bytes :
  Part000.decode 220 5 0 0 = 1500
  /\ ArduinoIno.decode true 220 5 0 0 = 1244
  /\ Part000.decode 128 0 0 0 = 128
  /\ ArduinoIno.decode true 128 0 0 0 = -128.
Proof. split; [| split; [| split]]; vm_compute; reflexivity. Qed.

(** Where plain [char] is unsigned the two decoders agree on every input. *)
Lemma decoders_agree_unsigned_char (b0 b1 b2 b3 : Z) :
  ArduinoIno.decode false b0 b1 b2 b3 = Part000.decode b0 b1 b2 b3.
Proof.
  unfold ArduinoIno.decode, Part000.decode.
  cbn [fmap list_fmap to_plain_char]. apply parse_int_ans_same.
Qed.

(** [wrap_int] keeps the residue modulo 2^32, and two wrapped values are
    equal exactly when the integers are congruent. *)
Lemma wrap_int_eq_iff (a b : Z) :
  wrap_int a = wrap_int b <-> a mod 2 ^ 32 = b mod 2 ^ 32.
Proof.
  unfold wrap_int, INT_BITS.
  change (2 ^ (32 - 1)) with 2147483648. change (2 ^ 32) with 4294967296.
  pose proof (Z.div_mod a 4294967296 ltac:(lia)) as Ea.
  pose proof (Z.mod_pos_bound a 4294967296 ltac:(lia)) as Ba.
  pose proof (Z.div_mod b 4294967296 ltac:(lia)) as Eb.
  pose proof (Z.mod_pos_bound b 4294967296 ltac:(lia)) as Bb.
  pose proof (Z.div_mod (a + 2147483648) 4294967296 ltac:(lia)) as Ea'.
  pose proof (Z.mod_pos_bound (a + 2147483648) 4294967296 ltac:(lia)) as Ba'.
  pose proof (Z.div_mod (b + 2147483648) 4294967296 ltac:(lia)) as Eb'.
  pose proof (Z.mod_pos_bound (b + 2147483648) 4294967296 ltac:(lia)) as Bb'.
  split; intros H; lia.
Qed.

Lemma int_add_wrap_l (a b : Z) : int_add (wrap_int a) b = wrap_int (a + b).
Proof.
  unfold int_add, wrap_int, INT_BITS.
  change (2 ^ (32 - 1)) with 2147483648. change (2 ^ 32) with 4294967296.
  pose proof (Z.div_mod (a + 2147483648) 4294967296 ltac:(lia)) as Ea.
  replace ((a + 2147483648) mod 4294967296 - 2147483648 + b + 2147483648)
    with ((a + b + 2147483648)
          + (- ((a + 2147483648) / 4294967296)) * 4294967296) by lia.
  rewrite Z.mod_add by lia. reflexivity.
Qed.

Lemma wrap_int_add_l (a b : Z) :
  wrap_int (wrap_int a + b) = wrap_int (a + b).
Proof. exact (int_add_wrap_l a b). Qed.

Lemma int_add_wrap_r (a b : Z) : int_add a (wrap_int b) = wrap_int (a + b).
Proof.
  unfold int_add at 1. rewrite Z.add_comm. fold (int_add (wrap_int b) a).
  rewrite int_add_wrap_l. f_equal. lia.
Qed.

(** Both decoders are the wrapped little-endian sum of the stored
    characters. *)
Lemma compose_wrapped (x0 x1 x2 x3 : Z) :
  int_add (int_add (int_add x0 (int_shl x1 8)) (int_shl x2 16)) (int_shl x3 24)
  = wrap_int (x0 + x1 * 2 ^ 8 + x2 * 2 ^ 16 + x3 * 2 ^ 24).
Proof.
  unfold int_shl. rewrite !Z.shiftl_mul_pow2 by lia.
  rewrite !int_add_wrap_r. rewrite !wrap_int_add_l.
  rewrite <- (Z.add_assoc (wrap_int _)). rewrite wrap_int_add_l.
  rewrite Z.add_assoc. reflexivity.
Qed.

(** Where plain [char] is signed the two decoders agree on a group exactly
    when none of its first three bytes is 0x80 or more. *)
Lemma decoders_agree_signed_char_iff (b0 b1 b2 b3 : Z) :
  is_byte b0 -> is_byte b1 -> is_byte b2 -> is_byte b3 ->
  ArduinoIno.decode true b0 b1 b2 b3 = Part000.decode b0 b1 b2 b3
  <-> b0 < 128 /\ b1 < 128 /\ b2 < 128.
Proof.
  unfold is_byte. intros H0 H1 H2 H3.
  rewrite ino_decode_signed.
  unfold Part000.decode. rewrite servo_parse_int_ans_unroll.
  cbn [fmap list_fmap lookup_total list_lookup_total].
  rewrite !to_unsigned_char_byte by (unfold is_byte; lia).
  rewrite !compose_wrapped. rewrite wrap_int_eq_iff.
  change (2 ^ 8) with 256. change (2 ^ 16) with 65536.
  change (2 ^ 24) with 16777216. change (2 ^ 32) with 4294967296.
  set (u := b0 + b1 * 256 + b2 * 65536 + b3 * 16777216).
  pose proof (Z.div_mod u 4294967296 ltac:(lia)) as Eu.
  pose proof (Z.mod_pos_bound u 4294967296 ltac:(lia)) as Bu.
  assert (Hu : 0 <= u < 4294967296) by (subst u; lia).
  destruct (Z_lt_le_dec b0 128) as [L0 | G0];
  destruct (Z_lt_le_dec b1 128) as [L1 | G1];
  destruct (Z_lt_le_dec b2 128) as [L2 | G2];
  destruct (Z_lt_le_dec b3 128) as [L3 | G3];
  rewrite ?(to_signed_char_low b0), ?(to_signed_char_high b0),
          ?(to_signed_char_low b1), ?(to_signed_char_high b1),
          ?(to_signed_char_low b2), ?(to_signed_char_high b2),
          ?(to_signed_char_low b3), ?(to_signed_char_high b3) by lia;
  match goal with
  | |- ?s mod _ = _ <-> _ =>
      pose proof (Z.div_mod s 4294967296 ltac:(lia)) as Es;
      pose proof (Z.mod_pos_bound s 4294967296 ltac:(lia)) as Bs
  end;
  subst u; split; intros H; lia.
Qed.

(** ** Purity of the decoder *)

Lemma lookup_total_take_4 (buf buf' : list Z) (i : nat) :
  take 4 buf = take 4 buf' -> (i < 4)%nat -> buf !!! i = buf' !!! i.
Proof.
  intros Heq Hi.
  rewrite !list_lookup_total_alt.
  rewrite <- (lookup_take_lt buf 4 i) by exact Hi.
  rewrite <- (lookup_take_lt buf' 4 i) by exact Hi.
  rewrite Heq. reflexivity.
Qed.

Lemma parse_int_ans_first_four (buf buf' : list Z) :
  take 4 buf = take 4 buf' ->
  Part000.parse_int_ans buf = Part000.parse_int_ans buf'.
Proof.
  intros Heq. rewrite !servo_parse_int_ans_unroll.
  rewrite (lookup_total_take_4 buf buf' 0 Heq) by lia.
  rewrite (lookup_total_take_4 buf buf' 1 Heq) by lia.
  rewrite (lookup_total_take_4 buf buf' 2 Heq) by lia.
  rewrite (lookup_total_take_4 buf buf' 3 Heq) by lia.
  reflexivity.
Qed.

(** C8.  The decoder is a function of the first four bytes of the buffer
    and of nothing else.  Two states of [Arduino.ino] that agree on those
    four bytes, whatever their cursors, frames, pending input and logs, make
    [parse_int] append the same integer, which is also the integer the
    servo variant computes; calling [parse_int] again on the state it left
    is one such pair, so decoding twice gives the same integer twice. *)
Theorem parse_int_depends_on_four_bytes (s s' : ArduinoIno.sketch) :
  take 4 (ArduinoIno.buffer s) = take 4 (ArduinoIno.buffer s') ->
  in_bounds (ArduinoIno.read_values s) (ArduinoIno.values s) = true ->
  in_bounds (ArduinoIno.read_values s') (ArduinoIno.values s') = true ->
  exists t t',
    ArduinoIno.parse_int s = Done tt t
    /\ ArduinoIno.parse_int s' = Done tt t'
    /\ ArduinoIno.values t !!! Z.to_nat (ArduinoIno.read_values s)
       = ArduinoIno.values t' !!! Z.to_nat (ArduinoIno.read_values s')
    /\ ArduinoIno.values t !!! Z.to_nat (ArduinoIno.read_values s)
       = Part000.parse_int_ans (ArduinoIno.buffer s)
    /\ ArduinoIno.buffer t = ArduinoIno.buffer s
    /\ Part000.parse_int_ans (ArduinoIno.buffer s)
       = Part000.parse_int_ans (ArduinoIno.buffer s').
Proof.
  intros Hbuf Hin Hin'.
  assert (Hstored : forall (a : list Z) (i x : Z),
             in_bounds i a = true -> <[Z.to_nat i := x]> a !!! Z.to_nat i = x).
  { intros a i x Hi. unfold in_bounds in Hi.
    apply andb_prop in Hi. destruct Hi as [Hl Hu].
    apply Z.leb_le in Hl. apply Z.ltb_lt in Hu.
    apply list_lookup_total_insert_eq. lia. }
  destruct s as [buf rb vals rv rx lg]. destruct s' as [buf' rb' vals' rv' rx' lg'].
  cbn [ArduinoIno.buffer ArduinoIno.values ArduinoIno.read_values] in *.
  eexists. eexists.
  split; [| split; [| split; [| split; [| split]]]].
  - unfold ArduinoIno.parse_int, bind, gets, modify, array_store.
    unfold ArduinoIno.set_read_values, ArduinoIno.set_values.
    cbn [ArduinoIno.buffer ArduinoIno.values ArduinoIno.read_values
         ArduinoIno.read_bytes ArduinoIno.serial_rx ArduinoIno.log].
    rewrite Hin. reflexivity.
  - unfold ArduinoIno.parse_int, bind, gets, modify, array_store.
    unfold ArduinoIno.set_read_values, ArduinoIno.set_values.
    cbn [ArduinoIno.buffer ArduinoIno.values ArduinoIno.read_values
         ArduinoIno.read_bytes ArduinoIno.serial_rx ArduinoIno.log].
    rewrite Hin'. reflexivity.
  - cbn [ArduinoIno.values].
    rewrite !Hstored by assumption.
    rewrite (parse_int_ans_same buf), (parse_int_ans_same buf').
    apply parse_int_ans_first_four. exact Hbuf.
  - cbn [ArduinoIno.values]. rewrite Hstored by assumption.
    apply parse_int_ans_same.
  - reflexivity.
  - apply parse_int_ans_first_four. exact Hbuf.
Qed.

(** C8 on a small state whose buffer starts with DC 05 00 00: the decoder
    is called twice in a row and fills two slots with the same integer. *)
Lemma parse_int_twice_same_integer :
  let s := ArduinoIno.Sketch [220; 5; 0; 0; 9] 4 [0; 0; 0; 0; 0; 0] 0 [] [] in
  exists t t',
    ArduinoIno.parse_int s = Done tt t
    /\ ArduinoIno.parse_int t = Done tt t'
    /\ ArduinoIno.values t' !!! 0%nat = 1500
    /\ ArduinoIno.values t' !!! 1%nat = 1500.
Proof.
  intros s.
  destruct (parse_int_depends_on_four_bytes s
              (ArduinoIno.Sketch [220; 5; 0; 0; 9] 4 [1500; 0; 0; 0; 0; 0] 1 [] [])
              eq_refl eq_refl eq_refl)
    as (t & t' & Ht & Ht' & Hsame & Hval & _ & _).
  exists t, t'.
  assert (Et : t = ArduinoIno.Sketch [220; 5; 0; 0; 9] 4 [1500; 0; 0; 0; 0; 0] 1 [] []).
  { assert (E : Done tt t = ArduinoIno.parse_int s) by (symmetry; exact Ht).
    vm_compute in E. injection E as ->. reflexivity. }
  split; [exact Ht |]. split; [rewrite Et; exact Ht' |].
  assert (Et' : Done tt t' =
                Done tt (ArduinoIno.Sketch [220; 5; 0; 0; 9] 4
                           [1500; 1500; 0; 0; 0; 0] 2 [] [])).
  { rewrite <- Ht'. vm_compute. reflexivity. }
  injection Et' as ->. split; reflexivity.
Defined.

(** ** One call of [handleSerial] in [Arduino.ino] *)

Lemma in_bounds_true (i : Z) (a : list Z) :
  0 <= i < Z.of_nat (length a) -> in_bounds i a = true.
Proof.
  intros [Hl Hu]. unfold in_bounds.
  apply andb_true_intro. split; [apply Z.leb_le | apply Z.ltb_lt]; assumption.
Qed.

Lemma geb_true (a b : Z) : b <= a -> (a >=? b) = true.
Proof. intros H. rewrite Z.geb_leb. apply Z.leb_le. exact H. Qed.

Lemma geb_false (a b : Z) : a < b -> (a >=? b) = false.
Proof. intros H. rewrite Z.geb_leb. apply Z.leb_gt. exact H. Qed.

Lemma print_values_spec buf rb vals rv rx lg :
  length vals = 6%nat ->
  ArduinoIno.print_values (ArduinoIno.Sketch buf rb vals rv rx lg) =
  Done tt (ArduinoIno.Sketch buf rb vals 0 rx (lg ++ frame_log vals)).
Proof.
  intros Hlen.
  destruct vals as [| v0 [| v1 [| v2 [| v3 [| v4 [| v5 [| ? ?]]]]]]];
    try discriminate.
  cbv -[app]. rewrite <- ?app_assoc. cbn [app]. reflexivity.
Qed.

Section InoStep.

Variable plain_char_signed : bool.

Abbreviation handleSerial := (ArduinoIno.handleSerial plain_char_signed).
Abbreviation to_char := (to_plain_char plain_char_signed).

(** The byte is stored and fewer than four are pending. *)
Lemma handleSerial_store buf rb vals rv c rest lg :
  0 <= rb < 3 -> length buf = 64%nat -> rv < ArduinoIno.VALUE_LENGTH ->
  handleSerial (ArduinoIno.Sketch buf rb vals rv (c :: rest) lg) =
  Done tt (ArduinoIno.Sketch (<[Z.to_nat rb := to_char c]> buf) (rb + 1)
             vals rv rest lg).
Proof.
  intros Hrb Hbuf Hrv. unfold ArduinoIno.VALUE_LENGTH in Hrv.
  ino_unfold. ino_simpl.
  rewrite in_bounds_true by (rewrite Hbuf; lia). ino_simpl.
  rewrite int_add_small by int_small.
  rewrite geb_false by lia. ino_simpl.
  rewrite geb_false by (unfold ArduinoIno.VALUE_LENGTH; lia).
  reflexivity.
Qed.

(** The byte is stored with the cursor at 3 or more: [parse_int] runs and
    the frame is not yet full. *)
Lemma handleSerial_parse buf rb vals rv c rest lg :
  3 <= rb < 64 -> length buf = 64%nat ->
  0 <= rv < 5 -> length vals = 6%nat ->
  handleSerial (ArduinoIno.Sketch buf rb vals rv (c :: rest) lg) =
  let buf' := <[Z.to_nat rb := to_char c]> buf in
  Done tt (ArduinoIno.Sketch buf' 0
             (<[Z.to_nat rv := ArduinoIno.parse_int_ans buf']> vals)
             (rv + 1) rest lg).
Proof.
  intros Hrb Hbuf Hrv Hvals.
  ino_unfold. ino_simpl.
  rewrite in_bounds_true by (rewrite Hbuf; lia). ino_simpl.
  rewrite int_add_small by int_small.
  rewrite geb_true by lia. ino_simpl.
  rewrite in_bounds_true by (rewrite Hvals; lia). ino_simpl.
  rewrite int_add_small by int_small.
  rewrite geb_false by (unfold ArduinoIno.VALUE_LENGTH; lia).
  reflexivity.
Qed.

(** The byte completes the sixth value: the frame is reported and the
    frame cursor goes back to 0. *)
Lemma handleSerial_dispatch buf rb vals c rest lg :
  3 <= rb < 64 -> length buf = 64%nat -> length vals = 6%nat ->
  handleSerial (ArduinoIno.Sketch buf rb vals 5 (c :: rest) lg) =
  let buf' := <[Z.to_nat rb := to_char c]> buf in
  let vals' := <[5%nat := ArduinoIno.parse_int_ans buf']> vals in
  Done tt (ArduinoIno.Sketch buf' 0 vals' 0 rest (lg ++ frame_log vals')).
Proof.
  intros Hrb Hbuf Hvals.
  ino_unfold. ino_simpl.
  rewrite in_bounds_true by (rewrite Hbuf; lia). ino_simpl.
  rewrite int_add_small by int_small.
  rewrite geb_true by lia. ino_simpl.
  rewrite in_bounds_true by (rewrite Hvals; lia). ino_simpl.
  change (int_add 5 1) with 6.
  change (6 >=? ArduinoIno.VALUE_LENGTH) with true.
  cbv iota beta.
  rewrite print_values_spec by (rewrite length_insert; exact Hvals).
  reflexivity.
Qed.

(** The [while] of [loop]: one call of [handleSerial] per waiting byte. *)
Lemma while_available_nil (fuel : nat) (s : ArduinoIno.sketch) :
  ArduinoIno.serial_rx s = [] ->
  ArduinoIno.while_available plain_char_signed fuel s = Done tt s.
Proof.
  intros Hrx. destruct fuel as [| fuel]; [reflexivity |].
  cbn [ArduinoIno.while_available].
  unfold bind at 1. unfold ArduinoIno.Serial_available, gets.
  rewrite Hrx. reflexivity.
Qed.

Lemma while_available_cons (fuel : nat) (s s1 : ArduinoIno.sketch) c rest :
  ArduinoIno.serial_rx s = c :: rest ->
  handleSerial s = Done tt s1 ->
  ArduinoIno.while_available plain_char_signed (S fuel) s =
  ArduinoIno.while_available plain_char_signed fuel s1.
Proof.
  intros Hrx Hstep. cbn [ArduinoIno.while_available].
  unfold bind at 1. unfold ArduinoIno.Serial_available, gets.
  rewrite Hrx. cbn [length].
  assert (Hne : (Z.of_nat (S (length rest)) =? 0) = false)
    by (apply Z.eqb_neq; lia).
  rewrite Hne. cbn [negb]. unfold bind. rewrite Hstep. reflexivity.
Qed.

Lemma loop_is_while (s : ArduinoIno.sketch) :
  ArduinoIno.loop plain_char_signed s =
  ArduinoIno.while_available plain_char_signed
    (S (length (ArduinoIno.serial_rx s))) s.
Proof.
  unfold ArduinoIno.loop, bind, delay, ret.
  destruct (ArduinoIno.while_available _ _ s) as [[] s' | f s']; reflexivity.
Qed.

End InoStep.

(** ** The cursors along a run *)

Lemma frames_logged_app (l1 l2 : list event) :
  frames_logged (l1 ++ l2) = frames_logged l1 + frames_logged l2.
Proof.
  induction l1 as [| e l1 IH]; [reflexivity |].
  cbn [app frames_logged]. destruct e; rewrite IH; lia.
Qed.

Lemma frames_logged_frame_log (vals : list Z) :
  frames_logged (frame_log vals) = 1.
Proof.
  unfold frame_log. rewrite frames_logged_app.
  assert (H0 : frames_logged
                 (concat ((fun v => [Serial_print_int v; Serial_print_str ";"])
                            <$> vals)) = 0).
  { induction vals as [| v vals IH]; [reflexivity | exact IH]. }
  rewrite H0. reflexivity.
Qed.

Lemma start_between_calls (rx : list Z) : between_calls (ArduinoIno.start rx).
Proof.
  unfold between_calls, ArduinoIno.start, ArduinoIno.VALUE_LENGTH.
  cbn. repeat split; lia.
Qed.

Section InoRun.

Variable plain_char_signed : bool.

Abbreviation handleSerial := (ArduinoIno.handleSerial plain_char_signed).

(** One byte moves the position by one, modulo the 24 bytes of a frame;
    the log grows by one frame when the position wraps, and not at all
    otherwise. *)
Lemma handleSerial_position (s : ArduinoIno.sketch) c rest :
  between_calls s -> ArduinoIno.serial_rx s = c :: rest ->
  exists s1,
    handleSerial s = Done tt s1
    /\ between_calls s1
    /\ ArduinoIno.serial_rx s1 = rest
    /\ position s1 = (position s + 1) mod 24
    /\ frames_logged (ArduinoIno.log s1)
       = frames_logged (ArduinoIno.log s) + (position s + 1) / 24
    /\ (position s + 1 < 24 -> ArduinoIno.log s1 = ArduinoIno.log s).
Proof.
  destruct s as [buf rb vals rv rx lg].
  unfold between_calls, position, ArduinoIno.VALUE_LENGTH.
  cbn [ArduinoIno.serial_rx ArduinoIno.read_bytes ArduinoIno.buffer
       ArduinoIno.values ArduinoIno.read_values ArduinoIno.log].
  intros (Hbuf & Hvals & Hrb & Hrv) ->.
  destruct (Z_lt_le_dec rb 3) as [Hlt | Hge].
  - eexists. split.
    { apply handleSerial_store;
        [lia | exact Hbuf | unfold ArduinoIno.VALUE_LENGTH; lia]. }
    cbn [ArduinoIno.serial_rx ArduinoIno.read_bytes ArduinoIno.buffer
         ArduinoIno.values ArduinoIno.read_values ArduinoIno.log].
    rewrite length_insert.
    rewrite Z.mod_small by lia. rewrite Z.div_small by lia.
    repeat split; try assumption; try reflexivity; lia.
  - assert (rb = 3) as -> by lia.
    destruct (Z_lt_le_dec rv 5) as [Hrv5 | Hrv5].
    + eexists. split.
      { apply handleSerial_parse; [lia | exact Hbuf | lia | exact Hvals]. }
      cbn [ArduinoIno.serial_rx ArduinoIno.read_bytes ArduinoIno.buffer
           ArduinoIno.values ArduinoIno.read_values ArduinoIno.log].
      rewrite !length_insert.
      rewrite Z.mod_small by lia. rewrite Z.div_small by lia.
      repeat split; try assumption; try reflexivity; lia.
    + assert (rv = 5) as -> by lia.
      eexists. split.
      { apply handleSerial_dispatch; [lia | exact Hbuf | exact Hvals]. }
      cbn [ArduinoIno.serial_rx ArduinoIno.read_bytes ArduinoIno.buffer
           ArduinoIno.values ArduinoIno.read_values ArduinoIno.log].
      rewrite !length_insert.
      rewrite frames_logged_app, frames_logged_frame_log.
      change ((4 * 5 + 3 + 1) mod 24) with 0.
      change ((4 * 5 + 3 + 1) / 24) with 1.
      repeat split; try assumption; try reflexivity; lia.
Qed.

(** [fuel] turns of the [while] push the first [fuel] waiting bytes, or
    all of them when there are fewer. *)
Lemma while_available_position (fuel : nat) :
  forall s : ArduinoIno.sketch,
    between_calls s ->
    exists s',
      ArduinoIno.while_available plain_char_signed fuel s = Done tt s'
      /\ between_calls s'
      /\ ArduinoIno.serial_rx s' = drop fuel (ArduinoIno.serial_rx s)
      /\ position s'
         = (position s
            + Z.of_nat (Nat.min fuel (length (ArduinoIno.serial_rx s)))) mod 24
      /\ frames_logged (ArduinoIno.log s')
         = frames_logged (ArduinoIno.log s)
           + (position s
              + Z.of_nat (Nat.min fuel (length (ArduinoIno.serial_rx s)))) / 24
      /\ (position s
          + Z.of_nat (Nat.min fuel (length (ArduinoIno.serial_rx s))) < 24 ->
          ArduinoIno.log s' = ArduinoIno.log s).
Proof.
  assert (Hstay : forall s : ArduinoIno.sketch,
             between_calls s ->
             between_calls s
             /\ position s = (position s + 0) mod 24
             /\ frames_logged (ArduinoIno.log s)
                = frames_logged (ArduinoIno.log s) + (position s + 0) / 24
             /\ (position s + 0 < 24 -> ArduinoIno.log s = ArduinoIno.log s)).
  { intros s Hs.
    assert (Hpos : 0 <= position s < 24).
    { destruct Hs as (_ & _ & Hrb & Hrv).
      unfold position, ArduinoIno.VALUE_LENGTH in *. lia. }
    rewrite Z.add_0_r. rewrite Z.mod_small by lia. rewrite Z.div_small by lia.
    split; [exact Hs |]. split; [reflexivity |]. split; [lia | reflexivity]. }
  induction fuel as [| fuel IH]; intros s Hs.
  - exists s. cbn [Nat.min Z.of_nat]. rewrite drop_0.
    split; [reflexivity |].
    destruct (Hstay s Hs) as (H1 & H2 & H3 & H4).
    split; [exact H1 |]. split; [reflexivity |].
    split; [exact H2 |]. split; [exact H3 | exact H4].
  - destruct (ArduinoIno.serial_rx s) as [| c rest] eqn:Hrx.
    + exists s. rewrite while_available_nil by exact Hrx.
      cbn [length Nat.min Z.of_nat drop].
      split; [reflexivity |].
      destruct (Hstay s Hs) as (H1 & H2 & H3 & H4).
      split; [exact H1 |]. split; [exact Hrx |].
      split; [exact H2 |]. split; [exact H3 | exact H4].
    + destruct (handleSerial_position s c rest Hs Hrx)
        as (s1 & Hstep & Hs1 & Hrx1 & Hpos1 & Hfr1 & Hlog1).
      destruct (IH s1 Hs1) as (s' & Hrun & Hs' & Hrx' & Hpos' & Hfr' & Hlog').
      exists s'. rewrite (while_available_cons _ _ s s1 c rest Hrx Hstep).
      rewrite Hrx1 in Hrx', Hpos', Hfr', Hlog'.
      assert (Hpos : 0 <= position s < 24).
      { destruct Hs as (_ & _ & Hrb & Hrv).
        unfold position, ArduinoIno.VALUE_LENGTH in *. lia. }
      cbn [length Nat.min drop]. rewrite Nat2Z.inj_succ.
      set (n := Z.of_nat (Nat.min fuel (length rest))) in *.
      assert (Hn : 0 <= n) by (subst n; lia).
      split; [exact Hrun |]. split; [exact Hs' |]. split; [exact Hrx' |].
      split; [| split].
      * rewrite Hpos', Hpos1. rewrite Zplus_mod_idemp_l. f_equal. lia.
      * rewrite Hfr', Hfr1, Hpos1.
        pose proof (Z.div_mod (position s + 1) 24 ltac:(lia)) as E1.
        pose proof (Z.mod_pos_bound (position s + 1) 24 ltac:(lia)) as B1.
        pose proof (Z.div_mod ((position s + 1) mod 24 + n) 24 ltac:(lia)) as E2.
        pose proof (Z.mod_pos_bound ((position s + 1) mod 24 + n) 24
                      ltac:(lia)) as B2.
        pose proof (Z.div_mod (position s + Z.succ n) 24 ltac:(lia)) as E3.
        pose proof (Z.mod_pos_bound (position s + Z.succ n) 24 ltac:(lia)) as B3.
        lia.
      * intros Hsmall. rewrite Hlog'.
        -- apply Hlog1. lia.
        -- rewrite Hpos1. rewrite Z.mod_small by lia. lia.
Qed.

End InoRun.

(** C4.  Whatever values are waiting at the port in the initial state, and
    for every [k], the first [k] pushes (all of them, when fewer are
    waiting) end normally and leave the byte cursor within the buffer (in
    fact below 4) and the frame cursor within 0..6 (in fact below 6).  With
    [n] the number of bytes pushed, the byte cursor is [n mod 4], so it is
    back at 0 right after each fourth byte; the frame cursor is the number
    of decoded groups modulo 6 and the number of frames reported is
    [n / 24], so the frame cursor is back at 0 exactly when a frame has just
    been dispatched.  One pass of [loop] is the case where [k] exceeds the
    number of waiting bytes. *)
Theorem cursors_bounded_and_reset (plain_char_signed : bool) (bs : list Z)
    (k : nat) :
  (exists s',
      ArduinoIno.while_available plain_char_signed k (ArduinoIno.start bs)
      = Done tt s'
      /\ ArduinoIno.serial_rx s' = drop k bs
      /\ length (ArduinoIno.buffer s') = 64%nat
      /\ 0 <= ArduinoIno.read_bytes s'
           <= Z.of_nat (length (ArduinoIno.buffer s'))
      /\ 0 <= ArduinoIno.read_values s' <= ArduinoIno.VALUE_LENGTH
      /\ ArduinoIno.read_bytes s' = Z.of_nat (Nat.min k (length bs)) mod 4
      /\ ArduinoIno.read_values s'
         = (Z.of_nat (Nat.min k (length bs)) / 4) mod 6
      /\ frames_logged (ArduinoIno.log s')
         = Z.of_nat (Nat.min k (length bs)) / 24)
  /\ ArduinoIno.loop plain_char_signed (ArduinoIno.start bs)
     = ArduinoIno.while_available plain_char_signed (S (length bs))
         (ArduinoIno.start bs).
Proof.
  split; [| apply loop_is_while].
  destruct (while_available_position plain_char_signed k
              (ArduinoIno.start bs) (start_between_calls bs))
    as (s' & Hrun & Hs' & Hrx & Hpos & Hfr & _).
  exists s'. split; [exact Hrun |]. split; [exact Hrx |].
  destruct Hs' as (Hbuf & Hvals & Hrb & Hrv).
  unfold position, ArduinoIno.VALUE_LENGTH in *.
  cbn [ArduinoIno.start ArduinoIno.serial_rx ArduinoIno.read_bytes
       ArduinoIno.read_values ArduinoIno.log frames_logged] in Hpos, Hfr.
  set (n := Z.of_nat (Nat.min k (length bs))) in *.
  assert (Hn : 0 <= n) by (subst n; lia).
  rewrite Hbuf.
  pose proof (Z.div_mod n 24 ltac:(lia)) as E24.
  pose proof (Z.mod_pos_bound n 24 ltac:(lia)) as B24.
  pose proof (Z.div_mod n 4 ltac:(lia)) as E4.
  pose proof (Z.mod_pos_bound n 4 ltac:(lia)) as B4.
  pose proof (Z.div_mod (n / 4) 6 ltac:(lia)) as E6.
  pose proof (Z.mod_pos_bound (n / 4) 6 ltac:(lia)) as B6.
  change (4 * 0 + 0 + n) with n in Hpos, Hfr.
  repeat split; try lia.
Qed.

(** ** The servo variant stops at its first group *)

(** No run of the servo variant from its initial state makes any call to
    [Serial] or to a servo. *)
Lemma servo_variant_logs_nothing (bs : list Z) :
  Part000.log (servo_final (Part000.loop (Part000.start bs))) = [].
Proof.
  destruct bs as [| c0 [| c1 [| c2 [| c3 rest]]]];
    lazy -[to_unsigned_char]; reflexivity.
Qed.

(** C5.  Twenty-three bytes pushed from the initial state produce no call
    at all: no frame is reported and no servo is commanded, in
    [Arduino.ino] (which ends normally, five values and three bytes into
    the frame) and in the servo variant. *)
Theorem partial_frame_not_dispatched (plain_char_signed : bool) (bs : list Z) :
  length bs = 23%nat ->
  (exists s',
      ArduinoIno.loop plain_char_signed (ArduinoIno.start bs) = Done tt s'
      /\ ArduinoIno.log s' = []
      /\ frames_logged (ArduinoIno.log s') = 0
      /\ servo_calls (ArduinoIno.log s') = []
      /\ ArduinoIno.read_values s' = 5
      /\ ArduinoIno.read_bytes s' = 3)
  /\ Part000.log (servo_final (Part000.loop (Part000.start bs))) = [].
Proof.
  intros Hlen. split; [| apply servo_variant_logs_nothing].
  rewrite loop_is_while.
  destruct (while_available_position plain_char_signed
              (S (length (ArduinoIno.serial_rx (ArduinoIno.start bs))))
              (ArduinoIno.start bs) (start_between_calls bs))
    as (s' & Hrun & Hs' & _ & Hpos & _ & Hlog).
  exists s'. split; [exact Hrun |].
  cbn [ArduinoIno.start ArduinoIno.serial_rx ArduinoIno.log] in Hpos, Hlog.
  rewrite Hlen in Hpos, Hlog.
  assert (El : ArduinoIno.log s' = []) by (apply Hlog; reflexivity).
  rewrite El. cbn [frames_logged servo_calls].
  destruct Hs' as (_ & _ & Hrb & Hrv).
  unfold position, ArduinoIno.VALUE_LENGTH in *.
  change ((4 * ArduinoIno.read_values (ArduinoIno.start bs)
           + ArduinoIno.read_bytes (ArduinoIno.start bs)
           + Z.of_nat (Nat.min 24 23)) mod 24)
    with 23 in Hpos.
  repeat split; lia.
Qed.

(** C5 on a concrete input: five setpoints of 1500 and three bytes more. *)
Lemma partial_frame_not_dispatched_example :
  exists s',
    ArduinoIno.loop true
      (ArduinoIno.start [220; 5; 0; 0; 220; 5; 0; 0; 220; 5; 0; 0; 220; 5; 0; 0;
                         220; 5; 0; 0; 220; 5; 0]) = Done tt s'
    /\ ArduinoIno.log s' = [].
Proof.
  destruct (partial_frame_not_dispatched true
              [220; 5; 0; 0; 220; 5; 0; 0; 220; 5; 0; 0; 220; 5; 0; 0;
               220; 5; 0; 0; 220; 5; 0] eq_refl)
    as ((s' & Hrun & Hlog & _) & _).
  exists s'. split; [exact Hrun | exact Hlog].
Defined.

(** ** Groups and frames in [Arduino.ino] *)

Section InoFrame.

Variable plain_char_signed : bool.

Abbreviation while_available :=
  (ArduinoIno.while_available plain_char_signed).
Abbreviation decode := (ArduinoIno.decode plain_char_signed).

(** After the four stores of a group the decoder reads that group. *)
Lemma parse_int_ans_group (a0 a1 a2 a3 x0 x1 x2 x3 : Z) (buf0 : list Z) :
  ArduinoIno.parse_int_ans
    (<[3%nat := x3]> (<[2%nat := x2]> (<[1%nat := x1]> (<[0%nat := x0]>
       (a0 :: a1 :: a2 :: a3 :: buf0)))))
  = ArduinoIno.parse_int_ans [x0; x1; x2; x3].
Proof. rewrite !ino_parse_int_ans_unroll. reflexivity. Qed.

(** Four bytes, frame not yet full: one value is appended. *)
Lemma while_group (fuel : nat) buf vals rv c0 c1 c2 c3 rest lg :
  length buf = 64%nat -> length vals = 6%nat -> 0 <= rv < 5 ->
  exists buf',
    length buf' = 64%nat
    /\ while_available (S (S (S (S fuel))))
         (ArduinoIno.Sketch buf 0 vals rv (c0 :: c1 :: c2 :: c3 :: rest) lg)
       = while_available fuel
           (ArduinoIno.Sketch buf' 0
              (<[Z.to_nat rv := decode c0 c1 c2 c3]> vals) (rv + 1) rest lg).
Proof.
  intros Hbuf Hvals Hrv.
  destruct buf as [| a0 [| a1 [| a2 [| a3 buf0]]]]; try discriminate.
  erewrite while_available_cons;
    [| reflexivity
     | apply handleSerial_store;
       [lia | exact Hbuf | unfold ArduinoIno.VALUE_LENGTH; lia]].
  erewrite while_available_cons;
    [| reflexivity
     | apply handleSerial_store;
       [lia | rewrite length_insert; exact Hbuf
        | unfold ArduinoIno.VALUE_LENGTH; lia]].
  erewrite while_available_cons;
    [| reflexivity
     | apply handleSerial_store;
       [lia | rewrite !length_insert; exact Hbuf
        | unfold ArduinoIno.VALUE_LENGTH; lia]].
  erewrite while_available_cons;
    [| reflexivity
     | apply handleSerial_parse;
       [lia | rewrite !length_insert; exact Hbuf | lia | exact Hvals]].
  cbv zeta. change (Z.to_nat (0 + 1 + 1 + 1)) with 3%nat.
  change (Z.to_nat (0 + 1 + 1)) with 2%nat.
  change (Z.to_nat (0 + 1)) with 1%nat. change (Z.to_nat 0) with 0%nat.
  rewrite parse_int_ans_group.
  unfold ArduinoIno.decode. cbn [fmap list_fmap].
  eexists. split; [| reflexivity].
  rewrite !length_insert. exact Hbuf.
Qed.

(** Four bytes that complete the frame: the sixth value is appended, the
    frame is reported, the frame cursor starts again. *)
Lemma while_group_last (fuel : nat) buf vals c0 c1 c2 c3 rest lg :
  length buf = 64%nat -> length vals = 6%nat ->
  exists buf',
    length buf' = 64%nat
    /\ while_available (S (S (S (S fuel))))
         (ArduinoIno.Sketch buf 0 vals 5 (c0 :: c1 :: c2 :: c3 :: rest) lg)
       = while_available fuel
           (ArduinoIno.Sketch buf' 0
              (<[5%nat := decode c0 c1 c2 c3]> vals) 0 rest
              (lg ++ frame_log (<[5%nat := decode c0 c1 c2 c3]> vals))).
Proof.
  intros Hbuf Hvals.
  destruct buf as [| a0 [| a1 [| a2 [| a3 buf0]]]]; try discriminate.
  erewrite while_available_cons;
    [| reflexivity
     | apply handleSerial_store;
       [lia | exact Hbuf | unfold ArduinoIno.VALUE_LENGTH; lia]].
  erewrite while_available_cons;
    [| reflexivity
     | apply handleSerial_store;
       [lia | rewrite length_insert; exact Hbuf
        | unfold ArduinoIno.VALUE_LENGTH; lia]].
  erewrite while_available_cons;
    [| reflexivity
     | apply handleSerial_store;
       [lia | rewrite !length_insert; exact Hbuf
        | unfold ArduinoIno.VALUE_LENGTH; lia]].
  erewrite while_available_cons;
    [| reflexivity
     | apply handleSerial_dispatch;
       [lia | rewrite !length_insert; exact Hbuf | exact Hvals]].
  cbv zeta. change (Z.to_nat (0 + 1 + 1 + 1)) with 3%nat.
  change (Z.to_nat (0 + 1 + 1)) with 2%nat.
  change (Z.to_nat (0 + 1)) with 1%nat. change (Z.to_nat 0) with 0%nat.
  rewrite parse_int_ans_group.
  unfold ArduinoIno.decode. cbn [fmap list_fmap].
  eexists. split; [| reflexivity].
  rewrite !length_insert. exact Hbuf.
Qed.

(** Twenty-four bytes from the start of a frame: the frame holds the six
    decoded values, in order, and is reported once. *)
Lemma while_frame (fuel : nat) buf vals (f rest : list Z) lg :
  length buf = 64%nat -> length vals = 6%nat -> length f = 24%nat ->
  exists buf',
    length buf' = 64%nat
    /\ while_available (24 + fuel)
         (ArduinoIno.Sketch buf 0 vals 0 (f ++ rest) lg)
       = while_available fuel
           (ArduinoIno.Sketch buf' 0 (decode_frame plain_char_signed f) 0
              rest (lg ++ frame_log (decode_frame plain_char_signed f))).
Proof.
  intros Hbuf Hvals Hf.
  do 24 (destruct f as [| ? f]; [discriminate |]).
  destruct f; [| discriminate]. clear Hf.
  destruct vals as [| v0 [| v1 [| v2 [| v3 [| v4 [| v5 [| ? ?]]]]]]];
    try discriminate.
  cbn [app Nat.add].
  edestruct while_group as (b1 & Hb1 & ->); [exact Hbuf | reflexivity | lia |].
  edestruct while_group as (b2 & Hb2 & ->); [exact Hb1 | reflexivity | lia |].
  edestruct while_group as (b3 & Hb3 & ->); [exact Hb2 | reflexivity | lia |].
  edestruct while_group as (b4 & Hb4 & ->); [exact Hb3 | reflexivity | lia |].
  edestruct while_group as (b5 & Hb5 & ->); [exact Hb4 | reflexivity | lia |].
  edestruct while_group_last as (b6 & Hb6 & ->); [exact Hb5 | reflexivity |].
  exists b6. split; [exact Hb6 |]. reflexivity.
Qed.

End InoFrame.

(** ** Whole frames through [loop] *)

Lemma serial_output_frame_log (vals : list Z) :
  length vals = 6%nat -> serial_output (frame_log vals) = frame_text vals.
Proof.
  intros Hlen.
  destruct vals as [| v0 [| v1 [| v2 [| v3 [| v4 [| v5 [| ? ?]]]]]]];
    try discriminate.
  reflexivity.
Qed.

Lemma decode_frame_length (plain_char_signed : bool) (bs : list Z) :
  length bs = 24%nat -> length (decode_frame plain_char_signed bs) = 6%nat.
Proof.
  intros Hlen. do 24 (destruct bs as [| ? bs]; [discriminate |]).
  reflexivity.
Qed.

Lemma servo_calls_frame_log (vals : list Z) :
  servo_calls (frame_log vals) = [].
Proof.
  unfold frame_log. induction vals as [| v vals IH]; [reflexivity | exact IH].
Qed.

Section InoLoop.

Variable plain_char_signed : bool.

(** One group of input in [Arduino.ino]: the first slot of the frame holds
    the integer decoded from the four bytes. *)
Lemma ino_one_group (b0 b1 b2 b3 : Z) :
  exists s',
    ArduinoIno.loop plain_char_signed (ArduinoIno.start [b0; b1; b2; b3])
    = Done tt s'
    /\ ArduinoIno.values s' !!! 0%nat
       = ArduinoIno.decode plain_char_signed b0 b1 b2 b3
    /\ ArduinoIno.read_values s' = 1
    /\ ArduinoIno.read_bytes s' = 0
    /\ ArduinoIno.log s' = [].
Proof.
  rewrite loop_is_while.
  unfold ArduinoIno.start. cbn [ArduinoIno.serial_rx length].
  destruct (while_group plain_char_signed 1 (replicate 64 0)
              (replicate (Z.to_nat ArduinoIno.VALUE_LENGTH) 0) 0
              b0 b1 b2 b3 [] [] eq_refl eq_refl
              (conj (Z.le_refl 0) eq_refl)) as (buf' & _ & E).
  rewrite E. rewrite while_available_nil by reflexivity.
  eexists. split; [reflexivity |].
  cbn [ArduinoIno.values ArduinoIno.log ArduinoIno.read_bytes
       ArduinoIno.read_values].
  split; [reflexivity |]. split; [reflexivity |]. split; reflexivity.
Qed.

(** One frame of input in [Arduino.ino]: one line, no servo call. *)
Lemma ino_one_frame (f : list Z) :
  length f = 24%nat ->
  exists s',
    ArduinoIno.loop plain_char_signed (ArduinoIno.start f) = Done tt s'
    /\ ArduinoIno.values s' = decode_frame plain_char_signed f
    /\ ArduinoIno.log s' = frame_log (decode_frame plain_char_signed f)
    /\ serial_output (ArduinoIno.log s')
       = frame_text (decode_frame plain_char_signed f)
    /\ servo_calls (ArduinoIno.log s') = []
    /\ ArduinoIno.read_bytes s' = 0
    /\ ArduinoIno.read_values s' = 0.
Proof.
  intros Hf. rewrite loop_is_while.
  unfold ArduinoIno.start. cbn [ArduinoIno.serial_rx]. rewrite Hf.
  destruct (while_frame plain_char_signed 1 (replicate 64 0)
              (replicate (Z.to_nat ArduinoIno.VALUE_LENGTH) 0) f [] []
              eq_refl eq_refl Hf) as (buf' & _ & E).
  rewrite app_nil_r in E. change (24 + 1)%nat with 25%nat in E.
  rewrite E.
  rewrite while_available_nil by reflexivity.
  eexists. split; [reflexivity |].
  cbn [ArduinoIno.values ArduinoIno.log ArduinoIno.read_bytes
       ArduinoIno.read_values app].
  split; [reflexivity |]. split; [reflexivity |].
  split; [apply serial_output_frame_log, decode_frame_length, Hf |].
  split; [apply servo_calls_frame_log |]. split; reflexivity.
Qed.

End InoLoop.

(** ** The decoder in a run *)

(** C1.  For bytes [b0 .. b3] in 0..255 the arithmetic of [parse_int] in
    the servo variant, whose buffer is [unsigned char], gives
    [b0 + (b1<<8) + (b2<<16) + (b3<<24)] read as a signed 32-bit value.
    In [Arduino.ino] the four bytes pushed from the initial state end with
    the value of the decoder stored in the first slot of [values]; that
    value is the little-endian one exactly when plain [char] is unsigned or
    none of the first three bytes is 0x80 or more.  So where plain [char] is
    signed the bytes FF FF FF FF, which stand for -1, store -16843009. *)
Theorem parse_int_little_endian :
  (forall (plain_char_signed : bool) (b0 b1 b2 b3 : Z),
      is_byte b0 -> is_byte b1 -> is_byte b2 -> is_byte b3 ->
      Part000.decode b0 b1 b2 b3 = signed32 (little_endian_32 b0 b1 b2 b3)
      /\ (exists s,
             ArduinoIno.loop plain_char_signed
               (ArduinoIno.start [b0; b1; b2; b3]) = Done tt s
             /\ ArduinoIno.values s
                = ArduinoIno.decode plain_char_signed b0 b1 b2 b3
                  :: replicate 5 0
             /\ ArduinoIno.read_values s = 1)
      /\ (ArduinoIno.decode plain_char_signed b0 b1 b2 b3
          = signed32 (little_endian_32 b0 b1 b2 b3)
          <-> plain_char_signed = false
              \/ (b0 < 128 /\ b1 < 128 /\ b2 < 128)))
  /\ (exists s,
         ArduinoIno.loop true (ArduinoIno.start [255; 255; 255; 255])
         = Done tt s
         /\ ArduinoIno.values s = [-16843009; 0; 0; 0; 0; 0])
  /\ signed32 (little_endian_32 255 255 255 255) = -1.
Proof.
  split; [| split; [| reflexivity]].
  - intros sgn b0 b1 b2 b3 H0 H1 H2 H3.
    assert (E : Part000.decode b0 b1 b2 b3
                = signed32 (little_endian_32 b0 b1 b2 b3)).
    { unfold Part000.decode. rewrite servo_parse_int_ans_unroll.
      cbn [fmap list_fmap lookup_total list_lookup_total].
      rewrite !to_unsigned_char_byte by assumption.
      apply compose_unsigned; assumption. }
    split; [exact E |]. split.
    + rewrite loop_is_while.
      unfold ArduinoIno.start. cbn [ArduinoIno.serial_rx length].
      destruct (while_group sgn 1 (replicate 64 0)
                  (replicate (Z.to_nat ArduinoIno.VALUE_LENGTH) 0) 0
                  b0 b1 b2 b3 [] [] eq_refl eq_refl
                  (conj (Z.le_refl 0) eq_refl)) as (buf' & _ & Erun).
      rewrite Erun. rewrite while_available_nil by reflexivity.
      eexists. split; [reflexivity |].
      cbn [ArduinoIno.values ArduinoIno.read_values].
      split; reflexivity.
    + rewrite <- E. destruct sgn.
      * rewrite decoders_agree_signed_char_iff by assumption.
        split; [intros H; right; exact H |].
        intros [H | H]; [discriminate | exact H].
      * split; [intros _; left; reflexivity |].
        intros _. apply decoders_agree_unsigned_char.
  - eexists. split; [vm_compute; reflexivity | reflexivity].
Qed.

(** The three values the specification lists for C1, as [Arduino.ino]
    stores them where plain [char] is unsigned, obtained from the theorem. *)
Lemma parse_int_little_endian_examples :
  (exists s,
      ArduinoIno.loop false (ArduinoIno.start [255; 255; 255; 255]) = Done tt s
      /\ ArduinoIno.values s = [-1; 0; 0; 0; 0; 0])
  /\ (exists s,
         ArduinoIno.loop false (ArduinoIno.start [1; 0; 0; 0]) = Done tt s
         /\ ArduinoIno.values s = [1; 0; 0; 0; 0; 0])
  /\ (exists s,
         ArduinoIno.loop false (ArduinoIno.start [0; 0; 0; 128]) = Done tt s
         /\ ArduinoIno.values s = [-2147483648; 0; 0; 0; 0; 0]).
Proof.
  assert (B : forall b, (0 <=? b) && (b <? 256) = true -> is_byte b).
  { intros b Hb. apply andb_prop in Hb. destruct Hb as [Hl Hu].
    apply Z.leb_le in Hl. apply Z.ltb_lt in Hu. split; assumption. }
  split; [| split].
  - destruct (proj1 parse_int_little_endian false 255 255 255 255
                (B 255 eq_refl) (B 255 eq_refl) (B 255 eq_refl)
                (B 255 eq_refl))
      as (_ & (s & Hrun & Hvals & _) & Hiff).
    exists s. split; [exact Hrun |]. rewrite Hvals.
    rewrite (proj2 Hiff (or_introl eq_refl)). reflexivity.
  - destruct (proj1 parse_int_little_endian false 1 0 0 0
                (B 1 eq_refl) (B 0 eq_refl) (B 0 eq_refl) (B 0 eq_refl))
      as (_ & (s & Hrun & Hvals & _) & Hiff).
    exists s. split; [exact Hrun |]. rewrite Hvals.
    rewrite (proj2 Hiff (or_introl eq_refl)). reflexivity.
  - destruct (proj1 parse_int_little_endian false 0 0 0 128
                (B 0 eq_refl) (B 0 eq_refl) (B 0 eq_refl) (B 128 eq_refl))
      as (_ & (s & Hrun & Hvals & _) & Hiff).
    exists s. split; [exact Hrun |]. rewrite Hvals.
    rewrite (proj2 Hiff (or_introl eq_refl)). reflexivity.
Defined.

(** C6.  Two frames sent back to back, 48 bytes, are reported as two
    lines, in order: the first line holds the six integers decoded from
    the first 24 bytes and the second line the six integers decoded from
    the last 24 bytes, so that no value of one frame appears in the other;
    the frame in memory at the end is the second one. *)
Theorem two_frames_back_to_back (plain_char_signed : bool) (f1 f2 : list Z) :
  length f1 = 24%nat -> length f2 = 24%nat ->
  exists s',
    ArduinoIno.loop plain_char_signed (ArduinoIno.start (f1 ++ f2))
    = Done tt s'
    /\ ArduinoIno.log s'
       = frame_log (decode_frame plain_char_signed f1)
         ++ frame_log (decode_frame plain_char_signed f2)
    /\ frames_logged (ArduinoIno.log s') = 2
    /\ ArduinoIno.values s' = decode_frame plain_char_signed f2
    /\ ArduinoIno.read_bytes s' = 0
    /\ ArduinoIno.read_values s' = 0.
Proof.
  intros Hf1 Hf2. rewrite loop_is_while.
  unfold ArduinoIno.start. cbn [ArduinoIno.serial_rx].
  rewrite length_app, Hf1, Hf2.
  destruct (while_frame plain_char_signed (24 + 1) (replicate 64 0)
              (replicate (Z.to_nat ArduinoIno.VALUE_LENGTH) 0) f1 f2 []
              eq_refl eq_refl Hf1) as (buf1 & Hbuf1 & E1).
  change (24 + (24 + 1))%nat with (S (24 + 24)) in E1. rewrite E1.
  destruct (while_frame plain_char_signed 1 buf1
              (decode_frame plain_char_signed f1) f2 []
              ([] ++ frame_log (decode_frame plain_char_signed f1))
              Hbuf1 (decode_frame_length plain_char_signed f1 Hf1) Hf2)
    as (buf2 & _ & E2).
  rewrite app_nil_r in E2. rewrite E2. rewrite while_available_nil by reflexivity.
  eexists. split; [reflexivity |].
  cbn [ArduinoIno.values ArduinoIno.log ArduinoIno.read_bytes
       ArduinoIno.read_values app].
  split; [reflexivity |]. split; [| split; [reflexivity | split; reflexivity]].
  rewrite frames_logged_app, !frames_logged_frame_log. reflexivity.
Qed.

(** C6 on two concrete frames: six setpoints of 1500, then six of 1000. *)
Lemma two_frames_back_to_back_example :
  exists s',
    ArduinoIno.loop false
      (ArduinoIno.start
         ([220; 5; 0; 0; 220; 5; 0; 0; 220; 5; 0; 0;
           220; 5; 0; 0; 220; 5; 0; 0; 220; 5; 0; 0]
          ++ [232; 3; 0; 0; 232; 3; 0; 0; 232; 3; 0; 0;
              232; 3; 0; 0; 232; 3; 0; 0; 232; 3; 0; 0])) = Done tt s'
    /\ ArduinoIno.log s'
       = frame_log [1500; 1500; 1500; 1500; 1500; 1500]
         ++ frame_log [1000; 1000; 1000; 1000; 1000; 1000].
Proof.
  destruct (two_frames_back_to_back false
              [220; 5; 0; 0; 220; 5; 0; 0; 220; 5; 0; 0;
               220; 5; 0; 0; 220; 5; 0; 0; 220; 5; 0; 0]
              [232; 3; 0; 0; 232; 3; 0; 0; 232; 3; 0; 0;
               232; 3; 0; 0; 232; 3; 0; 0; 232; 3; 0; 0]
              eq_refl eq_refl) as (s' & Hrun & Hlog & _).
  exists s'. split; [exact Hrun |]. rewrite Hlog. vm_compute. reflexivity.
Defined.

(** C9.  When the byte that completes the sixth setpoint is handled, the
    calls added to the log print the six values of the frame, lowest index
    first, each in decimal and followed by a semicolon, and then end the
    line once: the text put on the line is [frame_text] of the frame. *)
Theorem completed_frame_is_printed (plain_char_signed : bool)
    (buf vals : list Z) (c : Z) (rest : list Z) (lg : list event) :
  length buf = 64%nat -> length vals = 6%nat ->
  exists s' v0 v1 v2 v3 v4 v5,
    ArduinoIno.handleSerial plain_char_signed
      (ArduinoIno.Sketch buf 3 vals 5 (c :: rest) lg) = Done tt s'
    /\ ArduinoIno.values s' = [v0; v1; v2; v3; v4; v5]
    /\ ArduinoIno.log s'
       = lg ++ [Serial_print_int v0; Serial_print_str ";";
                Serial_print_int v1; Serial_print_str ";";
                Serial_print_int v2; Serial_print_str ";";
                Serial_print_int v3; Serial_print_str ";";
                Serial_print_int v4; Serial_print_str ";";
                Serial_print_int v5; Serial_print_str ";";
                Serial_println_str ""]
    /\ ArduinoIno.log s' = lg ++ frame_log (ArduinoIno.values s')
    /\ serial_output (frame_log (ArduinoIno.values s'))
       = frame_text (ArduinoIno.values s')
    /\ frame_text (ArduinoIno.values s')
       = pretty v0 +:+ ";" +:+ pretty v1 +:+ ";" +:+ pretty v2 +:+ ";"
         +:+ pretty v3 +:+ ";" +:+ pretty v4 +:+ ";" +:+ pretty v5 +:+ ";"
         +:+ line_end.
Proof.
  intros Hbuf Hvals.
  destruct vals as [| v0 [| v1 [| v2 [| v3 [| v4 [| v5 [| ? ?]]]]]]];
    try discriminate.
  pose proof (handleSerial_dispatch plain_char_signed buf 3
                [v0; v1; v2; v3; v4; v5] c rest lg
                (conj (Z.le_refl 3) eq_refl) Hbuf eq_refl) as E.
  cbv zeta in E. cbn [insert list_insert] in E.
  revert E.
  generalize (ArduinoIno.parse_int_ans
                (<[Z.to_nat 3 := to_plain_char plain_char_signed c]> buf)).
  intros x E.
  eexists. exists v0, v1, v2, v3, v4, x.
  split; [exact E |].
  cbn [ArduinoIno.values ArduinoIno.log].
  split; [reflexivity |]. split; [reflexivity |]. split; [reflexivity |].
  split; reflexivity.
Qed.

(** C9 on a concrete frame: the line printed for the setpoints
    1500, 1, -1, -2147483648, 128, 50462976. *)
Lemma completed_frame_is_printed_example :
  exists s',
    ArduinoIno.handleSerial false
      (ArduinoIno.Sketch ([0; 1; 2] ++ replicate 61 0) 3
         [1500; 1; -1; -2147483648; 128; 0] 5 [3] []) = Done tt s'
    /\ serial_output (ArduinoIno.log s')
       = "1500;1;-1;-2147483648;128;50462976;" +:+ line_end.
Proof.
  destruct (completed_frame_is_printed false ([0; 1; 2] ++ replicate 61 0)
              [1500; 1; -1; -2147483648; 128; 0] 3 [] [] eq_refl eq_refl)
    as (s' & v0 & v1 & v2 & v3 & v4 & v5 & Hrun & Hvals & Hlog & _).
  exists s'. split; [exact Hrun |].
  assert (E : Done tt s'
              = ArduinoIno.handleSerial false
                  (ArduinoIno.Sketch ([0; 1; 2] ++ replicate 61 0) 3
                     [1500; 1; -1; -2147483648; 128; 0] 5 [3] []))
    by (symmetry; exact Hrun).
  vm_compute in E. injection E as ->. vm_compute. reflexivity.
Defined.

(** ** The write cursor is not guarded *)

Lemma parse_int_ans_insert_beyond (buf : list Z) (i : nat) (x : Z) :
  (4 <= i)%nat ->
  ArduinoIno.parse_int_ans (<[i := x]> buf) = ArduinoIno.parse_int_ans buf.
Proof.
  intros Hi. rewrite !ino_parse_int_ans_unroll.
  rewrite !list_lookup_total_insert_ne by lia. reflexivity.
Qed.

(** C3, as the sketch behaves.  [handleSerial] has no check on the write
    cursor.  In a state whose cursor is 4 or more, and still inside the 64
    bytes of the buffer, the call ends normally: the byte is stored at the
    cursor, the value appended to the frame is decoded from [buffer[0]] ..
    [buffer[3]] as they were, so the byte just stored takes no part in it,
    and the cursor goes back to 0. *)
Theorem push_beyond_four_is_unguarded (plain_char_signed : bool)
    (buf : list Z) (rb : Z) (vals : list Z) (rv c : Z) (rest : list Z)
    (lg : list event) :
  4 <= rb < 64 -> length buf = 64%nat ->
  length vals = 6%nat -> 0 <= rv < 6 ->
  exists s',
    ArduinoIno.handleSerial plain_char_signed
      (ArduinoIno.Sketch buf rb vals rv (c :: rest) lg) = Done tt s'
    /\ ArduinoIno.buffer s'
       = <[Z.to_nat rb := to_plain_char plain_char_signed c]> buf
    /\ ArduinoIno.read_bytes s' = 0
    /\ ArduinoIno.values s'
       = <[Z.to_nat rv := ArduinoIno.parse_int_ans buf]> vals
    /\ ArduinoIno.serial_rx s' = rest.
Proof.
  intros Hrb Hbuf Hvals Hrv.
  destruct (Z_lt_le_dec rv 5) as [Hlt | Hge].
  - eexists. split.
    { apply handleSerial_parse; [lia | exact Hbuf | lia | exact Hvals]. }
    cbv zeta.
    cbn [ArduinoIno.buffer ArduinoIno.read_bytes ArduinoIno.values
         ArduinoIno.serial_rx].
    rewrite parse_int_ans_insert_beyond by lia.
    split; [reflexivity |]. split; [reflexivity |]. split; reflexivity.
  - assert (rv = 5) as -> by lia.
    eexists. split.
    { apply handleSerial_dispatch; [lia | exact Hbuf | exact Hvals]. }
    cbv zeta.
    cbn [ArduinoIno.buffer ArduinoIno.read_bytes ArduinoIno.values
         ArduinoIno.serial_rx].
    rewrite parse_int_ans_insert_beyond by lia.
    split; [reflexivity |]. split; [reflexivity |]. split; reflexivity.
Qed.

(** With the cursor outside the buffer the store itself is outside the
    array: no test in the sketch comes before it, and what it does is
    undefined. *)
Lemma push_outside_buffer_is_undefined (plain_char_signed : bool)
    (buf : list Z) (rb : Z) (vals : list Z) (rv c : Z) (rest : list Z)
    (lg : list event) :
  length buf = 64%nat -> rb < 0 \/ 64 <= rb ->
  ArduinoIno.handleSerial plain_char_signed
    (ArduinoIno.Sketch buf rb vals rv (c :: rest) lg)
  = Fault OutOfBounds (ArduinoIno.Sketch buf (int_add rb 1) vals rv rest lg).
Proof.
  intros Hbuf Hrb. ino_unfold. ino_simpl.
  assert (Hout : in_bounds rb buf = false).
  { unfold in_bounds. rewrite Hbuf.
    destruct Hrb as [Hneg | Hbig].
    - assert (E : (0 <=? rb) = false) by (apply Z.leb_gt; lia).
      rewrite E. reflexivity.
    - assert (E : (rb <? Z.of_nat 64) = false) by (apply Z.ltb_ge; lia).
      rewrite E. apply andb_false_r. }
  rewrite Hout. reflexivity.
Qed.

(** C3, against the claim as stated.  With the bytes DC 05 00 00 in the
    buffer and the cursor at 4, pushing the byte 9 is not refused: the call
    ends normally, 9 sits at [buffer[4]], the value 1500 is appended and
    the cursor is 0 again. *)
Lemma push_at_cursor_four_proceeds :
  4 <= ArduinoIno.read_bytes
         (ArduinoIno.Sketch ([220; 5; 0; 0] ++ replicate 60 0) 4
            (replicate 6 0) 0 [9] [])
  /\ ArduinoIno.handleSerial false
       (ArduinoIno.Sketch ([220; 5; 0; 0] ++ replicate 60 0) 4
          (replicate 6 0) 0 [9] [])
     = Done tt
         (ArduinoIno.Sketch ([220; 5; 0; 0; 9] ++ replicate 59 0) 0
            ([1500] ++ replicate 5 0) 1 [] []).
Proof. split; [cbn; lia | vm_compute; reflexivity]. Qed.

(** The amended C3 at that same state. *)
Lemma push_beyond_four_is_unguarded_example :
  exists s',
    ArduinoIno.handleSerial false
      (ArduinoIno.Sketch ([220; 5; 0; 0] ++ replicate 60 0) 4
         (replicate 6 0) 0 [9] []) = Done tt s'
    /\ ArduinoIno.read_bytes s' = 0.
Proof.
  destruct (push_beyond_four_is_unguarded false
              ([220; 5; 0; 0] ++ replicate 60 0) 4 (replicate 6 0) 0 9 [] []
              (conj (Zle_bool_imp_le 4 4 eq_refl) eq_refl) eq_refl eq_refl
              (conj (Zle_bool_imp_le 0 0 eq_refl) eq_refl))
    as (s' & Hrun & _ & Hrb & _).
  exists s'. split; [exact Hrun | exact Hrb].
Defined.

(** ** The frame array of the servo variant *)

(** C2.  One frame of six setpoints of 1500, 24 bytes, pushed from the
    initial state.  The servo variant stops at the last statement of
    [parse_int] on the fourth byte: nothing is printed, no servo is
    commanded, [data_recv] is untouched and twenty bytes are left unread.
    [Arduino.ino] prints the frame once and has no servo to command. *)
Theorem servo_variant_one_frame :
  (exists s,
      Part000.loop
        (Part000.start [220; 5; 0; 0; 220; 5; 0; 0; 220; 5; 0; 0;
                        220; 5; 0; 0; 220; 5; 0; 0; 220; 5; 0; 0])
      = Fault IllFormedSubscript s
      /\ Part000.log s = []
      /\ servo_calls (Part000.log s) = []
      /\ Part000.data_recv s = [0; 0; 0; 0; 0; 0]
      /\ length (Part000.serial_rx s) = 20%nat)
  /\ (exists s,
      ArduinoIno.loop false
        (ArduinoIno.start [220; 5; 0; 0; 220; 5; 0; 0; 220; 5; 0; 0;
                           220; 5; 0; 0; 220; 5; 0; 0; 220; 5; 0; 0])
      = Done tt s
      /\ ArduinoIno.log s = frame_log [1500; 1500; 1500; 1500; 1500; 1500]
      /\ servo_calls (ArduinoIno.log s) = []).
Proof.
  split.
  - eexists. split; [vm_compute; reflexivity |].
    split; [reflexivity |]. split; [reflexivity |]. split; reflexivity.
  - eexists. split; [vm_compute; reflexivity |]. split; reflexivity.
Qed.

(** * Further properties of the sketches *)

(** ** The decoder and the sender *)

Lemma le_byte_div_mod (k v : Z) :
  0 <= k -> le_byte k v = (v / 2 ^ (8 * k)) mod 256.
Proof.
  intros Hk. unfold le_byte.
  rewrite Z.shiftr_div_pow2 by lia.
  change 255 with (Z.ones 8). rewrite Z.land_ones by lia. reflexivity.
Qed.

Lemma le_byte_is_byte (k v : Z) : 0 <= k -> is_byte (le_byte k v).
Proof.
  intros Hk. rewrite le_byte_div_mod by exact Hk.
  unfold is_byte. apply Z.mod_pos_bound. lia.
Qed.

Lemma servo_decode_wrapped (b0 b1 b2 b3 : Z) :
  is_byte b0 -> is_byte b1 -> is_byte b2 -> is_byte b3 ->
  Part000.decode b0 b1 b2 b3
  = wrap_int (b0 + b1 * 2 ^ 8 + b2 * 2 ^ 16 + b3 * 2 ^ 24).
Proof.
  intros H0 H1 H2 H3.
  unfold Part000.decode. rewrite servo_parse_int_ans_unroll.
  cbn [fmap list_fmap lookup_total list_lookup_total].
  rewrite !to_unsigned_char_byte by assumption.
  apply compose_wrapped.
Qed.

Lemma servo_decode_spec (b0 b1 b2 b3 : Z) :
  is_byte b0 -> is_byte b1 -> is_byte b2 -> is_byte b3 ->
  Part000.decode b0 b1 b2 b3 = signed32 (little_endian_32 b0 b1 b2 b3).
Proof.
  intros H0 H1 H2 H3.
  unfold Part000.decode. rewrite servo_parse_int_ans_unroll.
  cbn [fmap list_fmap lookup_total list_lookup_total].
  rewrite !to_unsigned_char_byte by assumption.
  apply compose_unsigned; assumption.
Qed.

(** The four bytes of [v] add up to [v], up to a multiple of 2^32. *)
Lemma le_bytes_sum (v : Z) :
  exists q,
    le_byte 0 v + le_byte 1 v * 2 ^ 8 + le_byte 2 v * 2 ^ 16
    + le_byte 3 v * 2 ^ 24 = v + q * 2 ^ 32.
Proof.
  rewrite !le_byte_div_mod by lia.
  change (2 ^ (8 * 0)) with 1. change (2 ^ (8 * 1)) with 256.
  change (2 ^ (8 * 2)) with (256 * 256).
  change (2 ^ (8 * 3)) with (256 * 256 * 256).
  rewrite Z.div_1_r.
  rewrite <- !Z.div_div by lia.
  set (d1 := v / 256). set (d2 := d1 / 256). set (d3 := d2 / 256).
  exists (- (d3 / 256)).
  pose proof (Z.div_mod v 256 ltac:(lia)) as E0.
  pose proof (Z.div_mod d1 256 ltac:(lia)) as E1.
  pose proof (Z.div_mod d2 256 ltac:(lia)) as E2.
  pose proof (Z.div_mod d3 256 ltac:(lia)) as E3.
  fold d1 in E0. fold d2 in E1. fold d3 in E2.
  change (2 ^ 8) with 256. change (2 ^ 16) with 65536.
  change (2 ^ 24) with 16777216. change (2 ^ 32) with 4294967296.
  lia.
Qed.

Lemma servo_decode_le_bytes (v : Z) :
  is_int v ->
  Part000.decode (le_byte 0 v) (le_byte 1 v) (le_byte 2 v) (le_byte 3 v) = v.
Proof.
  intros Hv.
  rewrite servo_decode_wrapped by (apply le_byte_is_byte; lia).
  destruct (le_bytes_sum v) as (q & ->).
  rewrite <- (wrap_int_id v) at 2 by exact Hv.
  apply wrap_int_eq_iff.
  rewrite Z.mod_add by (change (2 ^ 32) with 4294967296; lia). reflexivity.
Qed.

Lemma is_int_of_bounds (v : Z) :
  (- 2147483648 <=? v) && (v <? 2147483648) = true -> is_int v.
Proof.
  intros Hb. apply andb_prop in Hb. destruct Hb as [Hl Hu].
  apply Z.leb_le in Hl. apply Z.ltb_lt in Hu. split; assumption.
Qed.

Lemma is_byte_of_bounds (b : Z) :
  (0 <=? b) && (b <? 256) = true -> is_byte b.
Proof.
  intros Hb. apply andb_prop in Hb. destruct Hb as [Hl Hu].
  apply Z.leb_le in Hl. apply Z.ltb_lt in Hu. split; assumption.
Qed.

(** X1.  The decoder of the servo variant undoes the little-endian
    splitting of a setpoint: for every value [v] an [int] holds, negative
    ones included, [parse_int] computes [v] from the four bytes of [v],
    lowest byte first. *)
Theorem parse_int_inverts_le_bytes (v : Z) :
  is_int v ->
  Part000.decode (le_byte 0 v) (le_byte 1 v) (le_byte 2 v) (le_byte 3 v) = v
  /\ Forall is_byte (le_bytes v).
Proof.
  intros Hv. split; [apply servo_decode_le_bytes; exact Hv |].
  unfold le_bytes. repeat constructor; apply le_byte_is_byte; lia.
Qed.

(** X1 at the setpoint -1500. *)
Lemma parse_int_inverts_le_bytes_example :
  Part000.decode (le_byte 0 (-1500)) (le_byte 1 (-1500))
    (le_byte 2 (-1500)) (le_byte 3 (-1500)) = -1500.
Proof.
  exact (proj1 (parse_int_inverts_le_bytes (-1500)
                  (is_int_of_bounds (-1500) eq_refl))).
Defined.

(** X2.  The decoder of the servo variant loses nothing: two groups of
    four bytes that decode to the same integer are the same group. *)
Theorem parse_int_injective (b0 b1 b2 b3 c0 c1 c2 c3 : Z) :
  is_byte b0 -> is_byte b1 -> is_byte b2 -> is_byte b3 ->
  is_byte c0 -> is_byte c1 -> is_byte c2 -> is_byte c3 ->
  Part000.decode b0 b1 b2 b3 = Part000.decode c0 c1 c2 c3 ->
  b0 = c0 /\ b1 = c1 /\ b2 = c2 /\ b3 = c3.
Proof.
  intros Hb0 Hb1 Hb2 Hb3 Hc0 Hc1 Hc2 Hc3.
  rewrite !servo_decode_wrapped by assumption.
  rewrite wrap_int_eq_iff.
  unfold is_byte in *.
  change (2 ^ 8) with 256. change (2 ^ 16) with 65536.
  change (2 ^ 24) with 16777216. change (2 ^ 32) with 4294967296.
  rewrite !Z.mod_small by lia.
  intros E. lia.
Qed.

(** X2 at the group DC 05 00 80. *)
Lemma parse_int_injective_example :
  220 = 220 /\ 5 = 5 /\ 0 = 0 /\ 128 = 128.
Proof.
  exact (parse_int_injective 220 5 0 128 220 5 0 128
           (is_byte_of_bounds 220 eq_refl) (is_byte_of_bounds 5 eq_refl)
           (is_byte_of_bounds 0 eq_refl) (is_byte_of_bounds 128 eq_refl)
           (is_byte_of_bounds 220 eq_refl) (is_byte_of_bounds 5 eq_refl)
           (is_byte_of_bounds 0 eq_refl) (is_byte_of_bounds 128 eq_refl)
           eq_refl).
Defined.

(** X3.  Where plain [char] is signed, [parse_int] of [Arduino.ino] gives
    the little-endian value of a group exactly when none of the first three
    bytes is 0x80 or more; the fourth byte, which carries the sign, may be
    anything. *)
Theorem ino_signed_char_exact_iff (b0 b1 b2 b3 : Z) :
  is_byte b0 -> is_byte b1 -> is_byte b2 -> is_byte b3 ->
  ArduinoIno.decode true b0 b1 b2 b3
  = signed32 (little_endian_32 b0 b1 b2 b3)
  <-> b0 < 128 /\ b1 < 128 /\ b2 < 128.
Proof.
  intros H0 H1 H2 H3.
  rewrite <- (servo_decode_spec b0 b1 b2 b3) by assumption.
  apply decoders_agree_signed_char_iff; assumption.
Qed.

(** X3 at the group 64 7F 03 C8. *)
Lemma ino_signed_char_exact_iff_example :
  ArduinoIno.decode true 100 127 3 200
  = signed32 (little_endian_32 100 127 3 200).
Proof.
  apply (ino_signed_char_exact_iff 100 127 3 200
           (is_byte_of_bounds 100 eq_refl) (is_byte_of_bounds 127 eq_refl)
           (is_byte_of_bounds 3 eq_refl) (is_byte_of_bounds 200 eq_refl)).
  split; [reflexivity | split; reflexivity].
Defined.

(** ** A call of [handleSerial] with nothing to read *)

(** X4.  [handleSerial] does not test whether a byte is waiting.  Called on
    an empty port it stores the -1 that [Serial.read] returns, converted to
    a character (0xFF, or -1 in a signed [char]), and moves the write
    cursor as for a received byte.  [loop] tests [Serial.available] first:
    with nothing waiting it changes nothing. *)
Theorem handleSerial_without_byte (plain_char_signed : bool)
    (buf : list Z) (rb : Z) (vals : list Z) (rv : Z) (lg : list event) :
  0 <= rb < 3 -> length buf = 64%nat -> rv < ArduinoIno.VALUE_LENGTH ->
  ArduinoIno.handleSerial plain_char_signed
    (ArduinoIno.Sketch buf rb vals rv [] lg)
  = Done tt
      (ArduinoIno.Sketch
         (<[Z.to_nat rb := if plain_char_signed then -1 else 255]> buf)
         (rb + 1) vals rv [] lg)
  /\ ArduinoIno.loop plain_char_signed
       (ArduinoIno.Sketch buf rb vals rv [] lg)
     = Done tt (ArduinoIno.Sketch buf rb vals rv [] lg).
Proof.
  intros Hrb Hbuf Hrv. split.
  - ino_unfold. ino_simpl.
    rewrite in_bounds_true by (rewrite Hbuf; lia). ino_simpl.
    rewrite int_add_small by int_small.
    rewrite geb_false by lia. ino_simpl.
    rewrite geb_false by exact Hrv.
    destruct plain_char_signed; reflexivity.
  - rewrite loop_is_while. apply while_available_nil. reflexivity.
Qed.

(** X4 in the initial state. *)
Lemma handleSerial_without_byte_example :
  ArduinoIno.handleSerial false (ArduinoIno.start [])
  = Done tt
      (ArduinoIno.Sketch (<[0%nat := 255]> (replicate 64 0)) (0 + 1)
         (replicate 6 0) 0 [] []).
Proof.
  exact (proj1 (handleSerial_without_byte false (replicate 64 0) 0
                  (replicate 6 0) 0 []
                  (conj (Z.le_refl 0) eq_refl) eq_refl eq_refl)).
Defined.

(** ** Input that arrives in batches *)

Section InoBatches.

Variable plain_char_signed : bool.

Abbreviation handleSerial := (ArduinoIno.handleSerial plain_char_signed).
Abbreviation while_available := (ArduinoIno.while_available plain_char_signed).

(** [n + m] turns of the [while] are [n] turns followed by [m] turns, from
    any state. *)
Lemma while_available_add (n m : nat) :
  forall s : ArduinoIno.sketch,
    while_available (n + m) s
    = match while_available n s with
      | Done _ s1 => while_available m s1
      | Fault f s1 => Fault f s1
      end.
Proof.
  induction n as [| n IH]; intros s; [reflexivity |].
  destruct (ArduinoIno.serial_rx s) as [| c rest] eqn:Hrx.
  - rewrite !while_available_nil by exact Hrx. reflexivity.
  - destruct (handleSerial s) as [[] s1 | f s1] eqn:Hstep.
    + cbn [Nat.add].
      rewrite !(while_available_cons _ _ s s1 c rest Hrx Hstep). apply IH.
    + cbn [Nat.add ArduinoIno.while_available].
      unfold bind at 1 3. unfold ArduinoIno.Serial_available, gets.
      rewrite Hrx. cbn [length].
      assert (Hne : (Z.of_nat (S (length rest)) =? 0) = false)
        by (apply Z.eqb_neq; lia).
      rewrite Hne. cbn [negb]. unfold bind. rewrite Hstep. reflexivity.
Qed.

(** Between two calls, what a call does depends on the byte it reads and
    not on the bytes waiting behind it. *)
Lemma handleSerial_tail (s : ArduinoIno.sketch) (c : Z) (rest rest' : list Z) :
  between_calls s -> ArduinoIno.serial_rx s = c :: rest ->
  exists s1,
    handleSerial s = Done tt s1
    /\ between_calls s1
    /\ ArduinoIno.serial_rx s1 = rest
    /\ handleSerial (ArduinoIno.set_serial_rx (c :: rest') s)
       = Done tt (ArduinoIno.set_serial_rx rest' s1).
Proof.
  destruct s as [buf rb vals rv rx lg].
  unfold between_calls, ArduinoIno.VALUE_LENGTH, ArduinoIno.set_serial_rx.
  cbn [ArduinoIno.serial_rx ArduinoIno.read_bytes ArduinoIno.buffer
       ArduinoIno.values ArduinoIno.read_values ArduinoIno.log].
  intros (Hbuf & Hvals & Hrb & Hrv) ->.
  destruct (Z_lt_le_dec rb 3) as [Hlt | Hge].
  - eexists. split.
    { apply handleSerial_store;
        [lia | exact Hbuf | unfold ArduinoIno.VALUE_LENGTH; lia]. }
    cbn [ArduinoIno.serial_rx ArduinoIno.read_bytes ArduinoIno.buffer
         ArduinoIno.values ArduinoIno.read_values ArduinoIno.log].
    rewrite length_insert.
    split; [repeat split; try assumption; lia |]. split; [reflexivity |].
    apply handleSerial_store;
      [lia | exact Hbuf | unfold ArduinoIno.VALUE_LENGTH; lia].
  - assert (rb = 3) as -> by lia.
    destruct (Z_lt_le_dec rv 5) as [Hrv5 | Hrv5].
    + eexists. split.
      { apply handleSerial_parse; [lia | exact Hbuf | lia | exact Hvals]. }
      cbv zeta.
      cbn [ArduinoIno.serial_rx ArduinoIno.read_bytes ArduinoIno.buffer
           ArduinoIno.values ArduinoIno.read_values ArduinoIno.log].
      rewrite !length_insert.
      split; [repeat split; try assumption; lia |]. split; [reflexivity |].
      apply handleSerial_parse; [lia | exact Hbuf | lia | exact Hvals].
    + assert (rv = 5) as -> by lia.
      eexists. split.
      { apply handleSerial_dispatch; [lia | exact Hbuf | exact Hvals]. }
      cbv zeta.
      cbn [ArduinoIno.serial_rx ArduinoIno.read_bytes ArduinoIno.buffer
           ArduinoIno.values ArduinoIno.read_values ArduinoIno.log].
      rewrite !length_insert.
      split; [repeat split; try assumption; lia |]. split; [reflexivity |].
      apply handleSerial_dispatch; [lia | exact Hbuf | exact Hvals].
Qed.

(** The bytes of a first batch are handled the same way when a second batch
    is already waiting behind them. *)
Lemma while_available_batch (a : list Z) :
  forall (s : ArduinoIno.sketch) (b : list Z),
    between_calls s -> ArduinoIno.serial_rx s = a ->
    exists s1,
      while_available (length a) s = Done tt s1
      /\ between_calls s1
      /\ ArduinoIno.serial_rx s1 = []
      /\ while_available (length a) (ArduinoIno.set_serial_rx (a ++ b) s)
         = Done tt (ArduinoIno.set_serial_rx b s1).
Proof.
  induction a as [| c a IH]; intros s b Hs Hrx.
  - exists s. cbn [length app ArduinoIno.while_available].
    split; [reflexivity |]. split; [exact Hs |]. split; [exact Hrx |].
    reflexivity.
  - destruct (handleSerial_tail s c a (a ++ b) Hs Hrx)
      as (s1 & Hstep & Hs1 & Hrx1 & Hstep').
    destruct (IH s1 b Hs1 Hrx1) as (s2 & Hrun & Hs2 & Hrx2 & Hrun').
    exists s2. cbn [length app].
    rewrite (while_available_cons _ _ s s1 c a Hrx Hstep).
    split; [exact Hrun |]. split; [exact Hs2 |]. split; [exact Hrx2 |].
    rewrite (while_available_cons _ _
               (ArduinoIno.set_serial_rx (c :: a ++ b) s)
               (ArduinoIno.set_serial_rx (a ++ b) s1) c (a ++ b)
               eq_refl Hstep').
    exact Hrun'.
Qed.

End InoBatches.

(** Two batches: a pass over the first, then a pass over the second, give
    what one pass gives when both are waiting at once. *)
Lemma loop_two_batches (plain_char_signed : bool)
    (s : ArduinoIno.sketch) (a b : list Z) :
  between_calls s -> ArduinoIno.serial_rx s = [] ->
  exists s1,
    ArduinoIno.loop plain_char_signed (receive a s) = Done tt s1
    /\ between_calls s1
    /\ ArduinoIno.serial_rx s1 = []
    /\ ArduinoIno.loop plain_char_signed (receive b s1)
       = ArduinoIno.loop plain_char_signed (receive (a ++ b) s).
Proof.
  intros Hs Hrx.
  assert (Hsa : between_calls (receive a s)).
  { destruct s. exact Hs. }
  assert (Hrxa : ArduinoIno.serial_rx (receive a s) = a).
  { destruct s. cbn in Hrx. subst. reflexivity. }
  destruct (while_available_batch plain_char_signed a (receive a s) b Hsa Hrxa)
    as (s1 & Hrun & Hs1 & Hrx1 & Hrun').
  exists s1.
  assert (Eab : ArduinoIno.set_serial_rx (a ++ b) (receive a s)
                = receive (a ++ b) s).
  { destruct s. cbn in Hrx. subst. reflexivity. }
  assert (Eb : ArduinoIno.set_serial_rx b s1 = receive b s1).
  { destruct s1. cbn in Hrx1. subst. reflexivity. }
  rewrite Eab, Eb in Hrun'.
  split; [| split; [exact Hs1 | split; [exact Hrx1 |]]].
  - rewrite loop_is_while. rewrite Hrxa.
    replace (S (length a)) with (length a + 1)%nat by lia.
    rewrite while_available_add. rewrite Hrun.
    apply while_available_nil. exact Hrx1.
  - rewrite !loop_is_while.
    assert (Hlen : ArduinoIno.serial_rx (receive (a ++ b) s) = a ++ b).
    { destruct s. cbn in Hrx. subst. reflexivity. }
    rewrite Hlen. rewrite length_app.
    replace (S (length a + length b)) with (length a + S (length b))%nat by lia.
    rewrite while_available_add. rewrite Hrun'.
    assert (Hlenb : ArduinoIno.serial_rx (receive b s1) = b).
    { destruct s1. cbn in Hrx1. subst. reflexivity. }
    rewrite Hlenb. reflexivity.
Qed.

(** X5.  How the input is cut into batches does not matter.  From a state
    between two calls with nothing waiting, any number of passes of
    [loop], each over the batch that arrived before it, end normally with
    every byte read, in the very state that one pass reaches when all the
    batches are waiting at once. *)
Theorem passes_as_one_pass (plain_char_signed : bool)
    (batches : list (list Z)) :
  forall s : ArduinoIno.sketch,
    between_calls s -> ArduinoIno.serial_rx s = [] ->
    exists s',
      passes plain_char_signed batches s = Done tt s'
      /\ ArduinoIno.loop plain_char_signed (receive (concat batches) s)
         = Done tt s'
      /\ between_calls s'
      /\ ArduinoIno.serial_rx s' = [].
Proof.
  induction batches as [| b batches IH]; intros s Hs Hrx.
  - exists s. split; [reflexivity |]. split; [| split; assumption].
    rewrite loop_is_while.
    assert (E : receive (concat []) s = s).
    { destruct s. cbn in Hrx. subst. reflexivity. }
    rewrite E. apply while_available_nil. exact Hrx.
  - destruct (loop_two_batches plain_char_signed s b (concat batches) Hs Hrx)
      as (s1 & Hrun & Hs1 & Hrx1 & Hsame).
    destruct (IH s1 Hs1 Hrx1) as (s' & Hpasses & Hone & Hs' & Hrx').
    exists s'. cbn [passes concat]. unfold bind, modify.
    rewrite Hrun. split; [exact Hpasses |].
    rewrite <- Hsame. split; [exact Hone |]. split; assumption.
Qed.

(** X5 from the initial state, a frame of 1500s cut after its tenth byte,
    with an empty batch in between. *)
Lemma passes_as_one_pass_example :
  exists s',
    passes false
      [[220; 5; 0; 0; 220; 5; 0; 0; 220; 5]; [];
       [0; 0; 220; 5; 0; 0; 220; 5; 0; 0; 220; 5; 0; 0]]
      (ArduinoIno.start [])
    = Done tt s'
    /\ ArduinoIno.loop false
         (ArduinoIno.start
            [220; 5; 0; 0; 220; 5; 0; 0; 220; 5; 0; 0;
             220; 5; 0; 0; 220; 5; 0; 0; 220; 5; 0; 0])
       = Done tt s'.
Proof.
  destruct (passes_as_one_pass false
              [[220; 5; 0; 0; 220; 5; 0; 0; 220; 5]; [];
               [0; 0; 220; 5; 0; 0; 220; 5; 0; 0; 220; 5; 0; 0]]
              (ArduinoIno.start []) (start_between_calls []) eq_refl)
    as (s' & Hpasses & Hone & _).
  exists s'. split; [exact Hpasses | exact Hone].
Defined.

(** ** A pass from any state between two calls *)

(** X13.  The state between two calls is an invariant of [loop], from any
    such state and not only from the initial one: whatever is waiting, the
    pass ends normally with every byte read, in a state between two calls
    again; the position in the frame has advanced by the number of bytes,
    modulo 24, and one frame line was printed each time it wrapped. *)
Theorem loop_keeps_between_calls (plain_char_signed : bool)
    (s : ArduinoIno.sketch) :
  between_calls s ->
  exists s',
    ArduinoIno.loop plain_char_signed s = Done tt s'
    /\ between_calls s'
    /\ ArduinoIno.serial_rx s' = []
    /\ position s'
       = (position s + Z.of_nat (length (ArduinoIno.serial_rx s))) mod 24
    /\ frames_logged (ArduinoIno.log s')
       = frames_logged (ArduinoIno.log s)
         + (position s + Z.of_nat (length (ArduinoIno.serial_rx s))) / 24.
Proof.
  intros Hs. rewrite loop_is_while.
  destruct (while_available_position plain_char_signed
              (S (length (ArduinoIno.serial_rx s))) s Hs)
    as (s' & Hrun & Hs' & Hrx & Hpos & Hfr & _).
  rewrite Nat.min_r in Hpos, Hfr by lia.
  exists s'. split; [exact Hrun |]. split; [exact Hs' |].
  split; [| split; [exact Hpos | exact Hfr]].
  rewrite Hrx. apply drop_ge. lia.
Qed.

(** X13 from the middle of the third group of a frame, 30 bytes waiting. *)
Lemma loop_keeps_between_calls_example :
  exists s',
    ArduinoIno.loop true
      (ArduinoIno.Sketch (replicate 64 7) 2 (replicate 6 9) 2
         (replicate 30 200) [])
    = Done tt s'
    /\ position s' = 16
    /\ frames_logged (ArduinoIno.log s') = 1.
Proof.
  destruct (loop_keeps_between_calls true
              (ArduinoIno.Sketch (replicate 64 7) 2 (replicate 6 9) 2
                 (replicate 30 200) [])
              (conj eq_refl
                 (conj eq_refl
                    (conj (conj (Z.le_0_2) eq_refl)
                       (conj (Z.le_0_2) eq_refl)))))
    as (s' & Hrun & _ & _ & Hpos & Hfr).
  exists s'. split; [exact Hrun |]. split; [exact Hpos | exact Hfr].
Defined.

(** ** A stream of any length *)

Lemma complete_frames_upto_split (n : nat) :
  forall bs : list Z,
    (length bs <= n)%nat ->
    Forall (fun f => length f = 24%nat) (complete_frames_upto n bs)
    /\ exists tail,
         bs = concat (complete_frames_upto n bs) ++ tail
         /\ (length tail < 24)%nat.
Proof.
  induction n as [| n IH]; intros bs Hlen.
  - split; [constructor |]. exists bs. split; [reflexivity | lia].
  - cbn [complete_frames_upto].
    destruct (Nat.leb_spec 24 (length bs)) as [Hge | Hlt].
    + destruct (IH (drop 24 bs)) as (Hall & tail & Htail & Hshort).
      { rewrite length_drop. lia. }
      split.
      * constructor; [| exact Hall]. rewrite length_take. lia.
      * exists tail. split; [| exact Hshort].
        cbn [concat]. rewrite <- app_assoc, <- Htail.
        symmetry. apply take_drop.
    + split; [constructor |]. exists bs. split; [reflexivity | exact Hlt].
Qed.

Lemma string_app_assoc (s1 s2 s3 : string) :
  (s1 +:+ s2) +:+ s3 = s1 +:+ (s2 +:+ s3).
Proof.
  induction s1 as [| a s1 IH]; [reflexivity |].
  change (String a ((s1 +:+ s2) +:+ s3) = String a (s1 +:+ (s2 +:+ s3))).
  rewrite IH. reflexivity.
Qed.

Lemma serial_output_app (l1 l2 : list event) :
  serial_output (l1 ++ l2) = serial_output l1 +:+ serial_output l2.
Proof.
  induction l1 as [| e l1 IH]; [reflexivity |].
  cbn [app serial_output]. rewrite IH. symmetry. apply string_app_assoc.
Qed.

Lemma serial_output_frames (plain_char_signed : bool) (fs : list (list Z)) :
  Forall (fun f => length f = 24%nat) fs ->
  serial_output
    (concat ((fun f => frame_log (decode_frame plain_char_signed f)) <$> fs))
  = foldr (fun f acc => frame_text (decode_frame plain_char_signed f) +:+ acc)
      EmptyString fs.
Proof.
  induction 1 as [| f fs Hf _ IH]; [reflexivity |].
  cbn [fmap list_fmap concat foldr]. rewrite serial_output_app, IH.
  rewrite serial_output_frame_log by (apply decode_frame_length; exact Hf).
  reflexivity.
Qed.

Section InoStream.

Variable plain_char_signed : bool.

Abbreviation while_available := (ArduinoIno.while_available plain_char_signed).

(** From the start of a frame, with enough turns for the whole input: one
    line per complete frame is added to the log. *)
Lemma while_stream (n : nat) :
  forall (bs buf vals : list Z) (lg : list event) (fuel : nat),
    length buf = 64%nat -> length vals = 6%nat ->
    (length bs <= n)%nat -> (length bs < fuel)%nat ->
    exists s',
      while_available fuel (ArduinoIno.Sketch buf 0 vals 0 bs lg) = Done tt s'
      /\ ArduinoIno.serial_rx s' = []
      /\ ArduinoIno.log s'
         = lg ++ concat ((fun f => frame_log (decode_frame plain_char_signed f))
                           <$> complete_frames_upto n bs).
Proof.
  induction n as [| n IH]; intros bs buf vals lg fuel Hbuf Hvals Hn Hfuel.
  - assert (bs = []) as -> by (destruct bs; [reflexivity | cbn in Hn; lia]).
    eexists. split; [apply while_available_nil; reflexivity |].
    split; [reflexivity |]. cbn. rewrite app_nil_r. reflexivity.
  - cbn [complete_frames_upto].
    destruct (Nat.leb_spec 24 (length bs)) as [Hge | Hlt].
    + destruct (while_frame plain_char_signed (fuel - 24) buf vals
                  (take 24 bs) (drop 24 bs) lg Hbuf Hvals)
        as (buf' & Hbuf' & E).
      { rewrite length_take. lia. }
      rewrite take_drop in E.
      replace (24 + (fuel - 24))%nat with fuel in E by lia.
      destruct (IH (drop 24 bs) buf'
                  (decode_frame plain_char_signed (take 24 bs))
                  (lg ++ frame_log (decode_frame plain_char_signed (take 24 bs)))
                  (fuel - 24)%nat Hbuf')
        as (s' & Hrun & Hrx & Hlog).
      { apply decode_frame_length. rewrite length_take. lia. }
      { rewrite length_drop. lia. }
      { rewrite length_drop. lia. }
      exists s'. rewrite E. split; [exact Hrun |]. split; [exact Hrx |].
      rewrite Hlog. cbn [fmap list_fmap concat]. rewrite <- app_assoc.
      reflexivity.
    + destruct (while_available_position plain_char_signed fuel
                  (ArduinoIno.Sketch buf 0 vals 0 bs lg))
        as (s' & Hrun & _ & Hrx & _ & _ & Hlog).
      { unfold between_calls, ArduinoIno.VALUE_LENGTH. cbn.
        repeat split; try assumption; lia. }
      exists s'. split; [exact Hrun |].
      cbn [ArduinoIno.serial_rx ArduinoIno.log] in Hrx, Hlog.
      split.
      * rewrite Hrx. apply drop_ge. lia.
      * cbn [fmap list_fmap concat]. rewrite app_nil_r. apply Hlog.
        unfold position. cbn [ArduinoIno.read_values ArduinoIno.read_bytes].
        lia.
Qed.

End InoStream.

(** X6.  For an input of any length and content, one pass of [loop] from
    the initial state of [Arduino.ino] ends normally with every byte read,
    and its log is one frame line for each successive group of 24 bytes, in
    order, holding the six integers decoded from that group; the bytes left
    over at the end, fewer than 24, add nothing to the log.  The text on
    the line is that of these frame lines, one after the other. *)
Theorem loop_prints_each_complete_frame (plain_char_signed : bool)
    (bs : list Z) :
  (exists s',
      ArduinoIno.loop plain_char_signed (ArduinoIno.start bs) = Done tt s'
      /\ ArduinoIno.serial_rx s' = []
      /\ ArduinoIno.log s' = stream_log plain_char_signed bs
      /\ serial_output (ArduinoIno.log s') = stream_text plain_char_signed bs)
  /\ Forall (fun f => length f = 24%nat) (complete_frames bs)
  /\ exists tail,
       bs = concat (complete_frames bs) ++ tail /\ (length tail < 24)%nat.
Proof.
  pose proof (complete_frames_upto_split (length bs) bs (Nat.le_refl _))
    as Hsplit.
  split; [| exact Hsplit].
  rewrite loop_is_while.
  destruct (while_stream plain_char_signed (length bs) bs (replicate 64 0)
              (replicate (Z.to_nat ArduinoIno.VALUE_LENGTH) 0) []
              (S (length bs)) eq_refl eq_refl (Nat.le_refl _)
              (Nat.lt_succ_diag_r _))
    as (s' & Hrun & Hrx & Hlog).
  exists s'. split; [exact Hrun |]. split; [exact Hrx |].
  split; [exact Hlog |].
  cbn [app] in Hlog. rewrite Hlog.
  apply serial_output_frames. exact (proj1 Hsplit).
Qed.

(** ** A frame is reported before the next byte is read *)

(** The first [k] calls of [handleSerial] see the first [k] bytes only:
    what they print is what a whole pass prints on those bytes alone. *)
Lemma while_prefix (plain_char_signed : bool) (bs : list Z) (k : nat) :
  exists s',
    ArduinoIno.while_available plain_char_signed k (ArduinoIno.start bs)
    = Done tt s'
    /\ ArduinoIno.serial_rx s' = drop k bs
    /\ ArduinoIno.log s' = stream_log plain_char_signed (take k bs).
Proof.
  destruct (Nat.le_gt_cases k (length bs)) as [Hle | Hgt].
  - assert (Hlen : length (take k bs) = k) by (rewrite length_take; lia).
    destruct (while_available_batch plain_char_signed (take k bs)
                (ArduinoIno.start (take k bs)) (drop k bs)
                (start_between_calls (take k bs)) eq_refl)
      as (s1 & Hrun & _ & Hrx1 & Hrun').
    destruct (while_stream plain_char_signed (length (take k bs)) (take k bs)
                (replicate 64 0)
                (replicate (Z.to_nat ArduinoIno.VALUE_LENGTH) 0) []
                (length (take k bs) + 1) eq_refl eq_refl (Nat.le_refl _))
      as (s2 & Hrun2 & _ & Hlog2); [lia |].
    change (ArduinoIno.Sketch (replicate 64 0) 0
              (replicate (Z.to_nat ArduinoIno.VALUE_LENGTH) 0) 0
              (take k bs) [])
      with (ArduinoIno.start (take k bs)) in Hrun2.
    rewrite while_available_add, Hrun in Hrun2.
    rewrite while_available_nil in Hrun2 by exact Hrx1.
    assert (s2 = s1) as -> by congruence.
    change (ArduinoIno.set_serial_rx (take k bs ++ drop k bs)
              (ArduinoIno.start (take k bs)))
      with (ArduinoIno.start (take k bs ++ drop k bs)) in Hrun'.
    rewrite take_drop, Hlen in Hrun'.
    exists (ArduinoIno.set_serial_rx (drop k bs) s1).
    split; [exact Hrun' |]. destruct s1. split; [reflexivity |].
    exact Hlog2.
  - destruct (while_stream plain_char_signed (length bs) bs (replicate 64 0)
                (replicate (Z.to_nat ArduinoIno.VALUE_LENGTH) 0) []
                k eq_refl eq_refl (Nat.le_refl _) Hgt)
      as (s' & Hrun & Hrx & Hlog).
    exists s'. split; [exact Hrun |].
    rewrite drop_ge, take_ge by lia. split; [exact Hrx | exact Hlog].
Qed.

(** In the servo variant no setpoint is ever appended to the frame: the
    frame cursor stays at 0 on every input. *)
Lemma servo_variant_appends_nothing (bs : list Z) :
  Part000.data_recv_consumed (servo_final (Part000.loop (Part000.start bs)))
  = 0.
Proof.
  destruct bs as [| c0 [| c1 [| c2 [| c3 rest]]]];
    lazy -[to_unsigned_char]; reflexivity.
Qed.


(** ** The frame between two dispatches *)

(** X7.  The frame is reused in place.  After a complete frame [f] and [k]
    more groups of four bytes, [k] at most 5, the array [values] holds the
    [k] integers of the new groups in its first slots and still holds the
    integers of [f] in the others; only the line of [f] has been printed
    and the frame cursor is [k]. *)
Theorem frame_overwritten_in_place (plain_char_signed : bool)
    (f g : list Z) (k : nat) :
  length f = 24%nat -> (k <= 5)%nat -> length g = (4 * k)%nat ->
  exists s',
    ArduinoIno.loop plain_char_signed (ArduinoIno.start (f ++ g)) = Done tt s'
    /\ ArduinoIno.values s'
       = decode_groups plain_char_signed k g
         ++ drop k (decode_frame plain_char_signed f)
    /\ ArduinoIno.log s' = frame_log (decode_frame plain_char_signed f)
    /\ ArduinoIno.read_values s' = Z.of_nat k
    /\ ArduinoIno.read_bytes s' = 0.
Proof.
  intros Hf Hk Hg. rewrite loop_is_while.
  unfold ArduinoIno.start. cbn [ArduinoIno.serial_rx].
  rewrite length_app, Hf.
  destruct (while_frame plain_char_signed (S (length g)) (replicate 64 0)
              (replicate (Z.to_nat ArduinoIno.VALUE_LENGTH) 0) f g []
              eq_refl eq_refl Hf) as (buf1 & Hbuf1 & E).
  replace (S (24 + length g)) with (24 + S (length g))%nat by lia.
  rewrite E. clear E. cbn [app].
  pose proof (decode_frame_length plain_char_signed f Hf) as Hvals.
  revert Hvals. generalize (decode_frame plain_char_signed f). intros vals Hvals.
  destruct vals as [| v0 [| v1 [| v2 [| v3 [| v4 [| v5 [| ? ?]]]]]]];
    try discriminate.
  clear Hvals.
  destruct k as [| [| [| [| [| [| k]]]]]]; try lia.
  - destruct g; [| discriminate]. cbn [length].
    rewrite while_available_nil by reflexivity.
    eexists. split; [reflexivity |].
    split; [reflexivity |]. split; [reflexivity |]. split; reflexivity.
  - do 4 (destruct g as [| ? g]; [discriminate |]).
    destruct g; [| discriminate]. cbn [length].
    next_group (while_group plain_char_signed).
    rewrite while_available_nil by reflexivity.
    eexists. split; [reflexivity |].
    cbn [ArduinoIno.values ArduinoIno.log ArduinoIno.read_values
         ArduinoIno.read_bytes decode_groups].
    split; [reflexivity |]. split; [reflexivity |]. split; reflexivity.
  - do 8 (destruct g as [| ? g]; [discriminate |]).
    destruct g; [| discriminate]. cbn [length].
    do 2 next_group (while_group plain_char_signed).
    rewrite while_available_nil by reflexivity.
    eexists. split; [reflexivity |].
    cbn [ArduinoIno.values ArduinoIno.log ArduinoIno.read_values
         ArduinoIno.read_bytes decode_groups].
    split; [reflexivity |]. split; [reflexivity |]. split; reflexivity.
  - do 12 (destruct g as [| ? g]; [discriminate |]).
    destruct g; [| discriminate]. cbn [length].
    do 3 next_group (while_group plain_char_signed).
    rewrite while_available_nil by reflexivity.
    eexists. split; [reflexivity |].
    cbn [ArduinoIno.values ArduinoIno.log ArduinoIno.read_values
         ArduinoIno.read_bytes decode_groups].
    split; [reflexivity |]. split; [reflexivity |]. split; reflexivity.
  - do 16 (destruct g as [| ? g]; [discriminate |]).
    destruct g; [| discriminate]. cbn [length].
    do 4 next_group (while_group plain_char_signed).
    rewrite while_available_nil by reflexivity.
    eexists. split; [reflexivity |].
    cbn [ArduinoIno.values ArduinoIno.log ArduinoIno.read_values
         ArduinoIno.read_bytes decode_groups].
    split; [reflexivity |]. split; [reflexivity |]. split; reflexivity.
  - do 20 (destruct g as [| ? g]; [discriminate |]).
    destruct g; [| discriminate]. cbn [length].
    do 5 next_group (while_group plain_char_signed).
    rewrite while_available_nil by reflexivity.
    eexists. split; [reflexivity |].
    cbn [ArduinoIno.values ArduinoIno.log ArduinoIno.read_values
         ArduinoIno.read_bytes decode_groups].
    split; [reflexivity |]. split; [reflexivity |]. split; reflexivity.
Qed.

(** X7 after a frame of 1500s and one group that carries 1000. *)
Lemma frame_overwritten_in_place_example :
  exists s',
    ArduinoIno.loop false
      (ArduinoIno.start
         ([220; 5; 0; 0; 220; 5; 0; 0; 220; 5; 0; 0;
           220; 5; 0; 0; 220; 5; 0; 0; 220; 5; 0; 0] ++ [232; 3; 0; 0]))
    = Done tt s'
    /\ ArduinoIno.values s' = [1000; 1500; 1500; 1500; 1500; 1500].
Proof.
  destruct (frame_overwritten_in_place false
              [220; 5; 0; 0; 220; 5; 0; 0; 220; 5; 0; 0;
               220; 5; 0; 0; 220; 5; 0; 0; 220; 5; 0; 0] [232; 3; 0; 0] 1
              eq_refl (le_S 1 4 (le_S 1 3 (le_S 1 2 (le_S 1 1 (le_n 1)))))
              eq_refl)
    as (s' & Hrun & Hvals & _).
  exists s'. split; [exact Hrun |]. rewrite Hvals. vm_compute. reflexivity.
Defined.

(** ** From the sender to the log *)

Lemma ino_decode_le_bytes (v : Z) :
  is_int v ->
  ArduinoIno.decode false (le_byte 0 v) (le_byte 1 v) (le_byte 2 v)
    (le_byte 3 v) = v.
Proof.
  intros Hv. rewrite decoders_agree_unsigned_char.
  apply servo_decode_le_bytes. exact Hv.
Qed.

(** X8.  Where plain [char] is unsigned, [Arduino.ino] reports what was
    sent: for any six values an [int] holds, the 24 bytes of their
    little-endian forms, pushed from the initial state, leave exactly those
    six values in the frame and print exactly their line. *)
Theorem sent_frame_is_printed (vs : list Z) :
  length vs = 6%nat -> Forall is_int vs ->
  exists s',
    ArduinoIno.loop false (ArduinoIno.start (encode_frame vs)) = Done tt s'
    /\ ArduinoIno.values s' = vs
    /\ ArduinoIno.log s' = frame_log vs
    /\ serial_output (ArduinoIno.log s') = frame_text vs.
Proof.
  intros Hlen Hall.
  destruct vs as [| v0 [| v1 [| v2 [| v3 [| v4 [| v5 [| ? ?]]]]]]];
    try discriminate.
  assert (Hd : decode_frame false (encode_frame [v0; v1; v2; v3; v4; v5])
               = [v0; v1; v2; v3; v4; v5]).
  { inversion Hall as [| ? ? H0 Hall1]; subst.
    inversion Hall1 as [| ? ? H1 Hall2]; subst.
    inversion Hall2 as [| ? ? H2 Hall3]; subst.
    inversion Hall3 as [| ? ? H3 Hall4]; subst.
    inversion Hall4 as [| ? ? H4 Hall5]; subst.
    inversion Hall5 as [| ? ? H5 _]; subst.
    unfold decode_frame, encode_frame, le_bytes.
    cbn [fmap list_fmap concat app decode_groups].
    rewrite !ino_decode_le_bytes by assumption. reflexivity. }
  destruct (ino_one_frame false (encode_frame [v0; v1; v2; v3; v4; v5])
              eq_refl) as (s' & Hrun & Hvals & Hlog & Htext & _).
  exists s'. rewrite Hd in Hvals, Hlog, Htext.
  split; [exact Hrun |]. split; [exact Hvals |]. split; [exact Hlog |].
  exact Htext.
Qed.

(** X8 for a frame with both extremes of [int]. *)
Lemma sent_frame_is_printed_example :
  exists s',
    ArduinoIno.loop false
      (ArduinoIno.start
         (encode_frame [1500; -1; 0; 2147483647; -2147483648; 1000]))
    = Done tt s'
    /\ ArduinoIno.values s' = [1500; -1; 0; 2147483647; -2147483648; 1000].
Proof.
  destruct (sent_frame_is_printed
              [1500; -1; 0; 2147483647; -2147483648; 1000] eq_refl
              (@List.Forall_cons _ _ _ _ (is_int_of_bounds 1500 eq_refl)
              (@List.Forall_cons _ _ _ _ (is_int_of_bounds (-1) eq_refl)
              (@List.Forall_cons _ _ _ _ (is_int_of_bounds 0 eq_refl)
              (@List.Forall_cons _ _ _ _ (is_int_of_bounds 2147483647 eq_refl)
              (@List.Forall_cons _ _ _ _ (is_int_of_bounds (-2147483648) eq_refl)
              (@List.Forall_cons _ _ _ _ (is_int_of_bounds 1000 eq_refl)
              (@List.Forall_nil _ _))))))))
    as (s' & Hrun & Hvals & _).
  exists s'. split; [exact Hrun | exact Hvals].
Defined.

(** ** [setup], then [loop] *)

Lemma ino_setup_spec (calls : list setup_call) (s : ArduinoIno.sketch) :
  ArduinoInoSetup.setup (Board calls s)
  = Done tt
      (Board (calls ++ [Serial_begin 115200; Serial_setTimeout 20])
         (ArduinoIno.set_log
            (ArduinoIno.log s ++ [Serial_println_str "Begin."]) s)).
Proof.
  unfold ArduinoInoSetup.setup, bind, configure, on_sketch, modify,
    ArduinoIno.emit.
  cbn [setup_calls sketch_of]. rewrite <- app_assoc. reflexivity.
Qed.

